(** * The PostgreSQL query builder and transaction coordinator

    A shallow embedding of [src/services/postgresClient.ts]: the chainable
    [QueryBuilder] class (filters, paging, the terminal operations [count],
    [execute], [insert], [update], [delete]) and [PostgresClient]
    ([from], [query], [transaction]).

    The [pg] driver is not part of the repository.  It is taken as a
    parameter ([Driver]): what the database answers to a statement, whether
    checking out a connection fails, and JavaScript's [parseInt]. *)

From Stdlib Require Import String Ascii List ZArith Lia Bool PeanoNat.
From Stdlib Require Import DecimalString.
Import ListNotations.

Open Scope list_scope.
Open Scope string_scope.

(* ===================================================================== *)
(** ** JavaScript values, rows, thrown values *)
(* ===================================================================== *)

Module Js.

(** Values bound to a statement ([any] in the source). *)
Inductive JsValue : Type :=
| JUndefined
| JNull
| JBool (b : bool)
| JNum (z : Z)
| JStr (s : string).

(** The result of [parseInt]. *)
Inductive JsNumber : Type :=
| NaN
| Num (z : Z).

(** A database row, and a record passed to [insert]/[update]: the object's
    own properties in the order [Object.keys] and [Object.values] enumerate
    them. *)
Definition Row : Type := list (string * JsValue).

(** What a [catch (error)] clause can receive. *)
Inductive Exn : Type :=
| DriverError (code message : string)
| TypeError (message : string)
| UserError (message : string).

Definition keys (o : Row) : list string := map fst o.
Definition values (o : Row) : list JsValue := map snd o.

(** [o.count]-style property read. *)
Fixpoint prop (name : string) (o : Row) : JsValue :=
  match o with
  | [] => JUndefined
  | (k, v) :: o' => if String.eqb k name then v else prop name o'
  end.

(** Template-literal rendering of a number that is an integer JavaScript
    holds exactly (up to 2^53 - 1 in absolute value): its decimal numeral.
    Larger numbers, which JavaScript rounds and from 1e21 on prints with an
    exponent, and fractions are outside this model. *)
Definition showZ (z : Z) : string := NilZero.string_of_int (Z.to_int z).

(** The same for an array index or the builder's placeholder counter. *)
Definition showNat (n : nat) : string := NilZero.string_of_uint (Nat.to_uint n).

(** [xs.join(sep)] on an array of strings. *)
Definition join (sep : string) (xs : list string) : string := String.concat sep xs.

(** [xs.map((x, i) => f x i)], with the index counted from [i0]. *)
Fixpoint mapi_from {A B : Type} (f : A -> nat -> B) (i0 : nat) (xs : list A) : list B :=
  match xs with
  | [] => []
  | x :: xs' => f x i0 :: mapi_from f (S i0) xs'
  end.

Definition mapi {A B : Type} (f : A -> nat -> B) (xs : list A) : list B :=
  mapi_from f 0 xs.

(** [xs.push(x)] and [xs.push(...ys)]: the array after the call. *)
Definition push {A : Type} (xs : list A) (x : A) : list A := (xs ++ [x])%list.
Definition pushAll {A : Type} (xs ys : list A) : list A := (xs ++ ys)%list.

(** The line feed inside the source's multi-line template literals. *)
Definition LF : string := String (ascii_of_nat 10) EmptyString.

End Js.
Import Js.

(* ===================================================================== *)
(** ** The builder object and its chained (synchronous) methods *)
(* ===================================================================== *)

Inductive Direction : Type := ASC | DESC.

Definition showDirection (d : Direction) : string :=
  match d with ASC => "ASC" | DESC => "DESC" end.

(** A property that [setData]/[setError] attach to the object later. *)
Inductive Slot (A : Type) : Type :=
| Absent
| IsNull
| Holds (a : A).
Arguments Absent {A}.
Arguments IsNull {A}.
Arguments Holds {A} a.

Record QueryBuilder : Type := mkBuilder {
  table : string;
  columns : list string;
  whereConditions : list string;
  whereParams : list JsValue;
  orderByColumns : list string;
  orderDirection : Direction;
  limitValue : option Z;
  offsetValue : option Z;
  paramCount : nat;
  data_ : Slot (list Row);
  error_ : Slot Exn
}.

(** [new QueryBuilder(table, client)]; the pool is the ambient one. *)
Definition newBuilder (t : string) : QueryBuilder :=
  {| table := t; columns := ["*"]; whereConditions := []; whereParams := [];
     orderByColumns := []; orderDirection := ASC; limitValue := None;
     offsetValue := None; paramCount := 1; data_ := Absent; error_ := Absent |}.

Definition set_columns (cs : list string) (b : QueryBuilder) : QueryBuilder :=
  mkBuilder (table b) cs (whereConditions b) (whereParams b) (orderByColumns b)
    (orderDirection b) (limitValue b) (offsetValue b) (paramCount b) (data_ b) (error_ b).

Definition set_where (conds : list string) (ps : list JsValue) (n : nat)
    (b : QueryBuilder) : QueryBuilder :=
  mkBuilder (table b) (columns b) conds ps (orderByColumns b)
    (orderDirection b) (limitValue b) (offsetValue b) n (data_ b) (error_ b).

Definition set_order (cs : list string) (d : Direction) (b : QueryBuilder) : QueryBuilder :=
  mkBuilder (table b) (columns b) (whereConditions b) (whereParams b) cs
    d (limitValue b) (offsetValue b) (paramCount b) (data_ b) (error_ b).

Definition set_limit (l : option Z) (b : QueryBuilder) : QueryBuilder :=
  mkBuilder (table b) (columns b) (whereConditions b) (whereParams b) (orderByColumns b)
    (orderDirection b) l (offsetValue b) (paramCount b) (data_ b) (error_ b).

Definition set_offset (o : option Z) (b : QueryBuilder) : QueryBuilder :=
  mkBuilder (table b) (columns b) (whereConditions b) (whereParams b) (orderByColumns b)
    (orderDirection b) (limitValue b) o (paramCount b) (data_ b) (error_ b).

(** The argument of [select]: one string or an array of strings. *)
Inductive Projection : Type :=
| OneColumn (c : string)
| Columns (cs : list string).

Definition select (p : Projection) (b : QueryBuilder) : QueryBuilder :=
  match p with
  | OneColumn c => set_columns [c] b
  | Columns cs => set_columns cs b
  end.

(** The shared body of [eq], [neq], [gt], [lt], [gte], [lte], [like], [ilike]:
    push [`${column} <op> $${this.paramCount}`], push the value,
    increment [paramCount]. *)
Definition pushCondition (op : string) (column : string) (value : JsValue)
    (b : QueryBuilder) : QueryBuilder :=
  set_where (push (whereConditions b) (column ++ " " ++ op ++ " $" ++ showNat (paramCount b)))
            (push (whereParams b) value)
            (S (paramCount b)) b.

Definition eq := pushCondition "=".
Definition neq := pushCondition "!=".
Definition gt := pushCondition ">".
Definition lt := pushCondition "<".
Definition gte := pushCondition ">=".
Definition lte := pushCondition "<=".
Definition like := pushCondition "LIKE".
Definition ilike := pushCondition "ILIKE".

(** [in(column, values)]. *)
Definition in_ (column : string) (vals : list JsValue) (b : QueryBuilder) : QueryBuilder :=
  let placeholders := join ", " (mapi (fun _ i => "$" ++ showNat (paramCount b + i)) vals) in
  set_where (push (whereConditions b) (column ++ " IN (" ++ placeholders ++ ")"))
            (pushAll (whereParams b) vals)
            (paramCount b + List.length vals) b.

Definition orderBy (column : string) (direction : Direction) (b : QueryBuilder) : QueryBuilder :=
  set_order [column] direction b.

Definition limit (value : Z) (b : QueryBuilder) : QueryBuilder := set_limit (Some value) b.
Definition offset (value : Z) (b : QueryBuilder) : QueryBuilder := set_offset (Some value) b.
Definition single (b : QueryBuilder) : QueryBuilder := set_limit (Some 1%Z) b.

Definition setData (rows : list Row) (b : QueryBuilder) : QueryBuilder :=
  mkBuilder (table b) (columns b) (whereConditions b) (whereParams b) (orderByColumns b)
    (orderDirection b) (limitValue b) (offsetValue b) (paramCount b) (Holds rows) IsNull.

Definition setError (e : Exn) (b : QueryBuilder) : QueryBuilder :=
  mkBuilder (table b) (columns b) (whereConditions b) (whereParams b) (orderByColumns b)
    (orderDirection b) (limitValue b) (offsetValue b) (paramCount b) IsNull (Holds e).

(* ===================================================================== *)
(** ** The statements the terminal operations compose *)
(* ===================================================================== *)

Record Stmt : Type := mkStmt { text : string; params : list JsValue }.

(** [if (this.whereConditions.length > 0) query += ` WHERE ${...join(' AND ')}`]. *)
Definition addWhere (b : QueryBuilder) (query : string) : string :=
  match whereConditions b with
  | [] => query
  | _ :: _ => query ++ " WHERE " ++ join " AND " (whereConditions b)
  end.

Definition countStmt (b : QueryBuilder) : Stmt :=
  let query := "SELECT COUNT(*) FROM " ++ table b in
  let query := addWhere b query in
  mkStmt query (whereParams b).

Definition executeStmt (b : QueryBuilder) : Stmt :=
  let query := "SELECT " ++ join ", " (columns b) ++ " FROM " ++ table b in
  let query := addWhere b query in
  let query := match orderByColumns b with
               | [] => query
               | _ :: _ => query ++ " ORDER BY " ++ join ", " (orderByColumns b)
                                 ++ " " ++ showDirection (orderDirection b)
               end in
  let query := match limitValue b with
               | None => query
               | Some l => query ++ " LIMIT " ++ showZ l
               end in
  let query := match offsetValue b with
               | None => query
               | Some o => query ++ " OFFSET " ++ showZ o
               end in
  mkStmt query (whereParams b).

Definition insertStmt (b : QueryBuilder) (data : Row) : Stmt :=
  let columns := keys data in
  let values := values data in
  let placeholders := join ", " (mapi (fun _ i => "$" ++ showNat (i + 1)) values) in
  mkStmt (LF ++ "        INSERT INTO " ++ table b ++ " (" ++ join ", " columns ++ ")"
          ++ LF ++ "        VALUES (" ++ placeholders ++ ")"
          ++ LF ++ "        RETURNING *"
          ++ LF ++ "      ")
         values.

Definition setClause (data : Row) : string :=
  join ", " (mapi (fun col i => col ++ " = $" ++ showNat (i + 1)) (keys data)).

Definition updateStmt (b : QueryBuilder) (data : Row) : Stmt :=
  let values := values data in
  let query := LF ++ "        UPDATE " ++ table b
            ++ LF ++ "        SET " ++ setClause data
            ++ LF ++ "      " in
  let '(query, values) :=
    match whereConditions b with
    | [] => (query, values)
    | _ :: _ => (query ++ " WHERE " ++ join " AND " (whereConditions b),
                 pushAll values (whereParams b))
    end in
  mkStmt (query ++ " RETURNING *") values.

Definition deleteStmt (b : QueryBuilder) : Stmt :=
  let query := LF ++ "        DELETE FROM " ++ table b ++ LF ++ "      " in
  let query := addWhere b query in
  mkStmt (query ++ " RETURNING *") (whereParams b).


(* ===================================================================== *)
(** ** The runtime: the pool, the driver, try/catch/finally *)
(* ===================================================================== *)

Inductive Channel : Type :=
| ViaPool      (* [pool.query], as the builder and [PostgresClient.query] use *)
| ViaClient.   (* [client.query] on the checked-out connection *)

Inductive Event : Type :=
| Checkout
| Sent (via : Channel) (s : Stmt)
| Released
| ConsoleError (label : string) (e : Exn).

(** What is observable outside the program: the number of connections the
    pool can still hand out, and everything that happened, oldest first. *)
Record World : Type := mkWorld { available : nat; trace : list Event }.

Inductive QueryResult : Type :=
| Rows (rows : list Row)
| Rejects (e : Exn).

(** The driver and the JavaScript built-in the source relies on.  The answer
    to a statement may depend on everything that happened before it. *)
Record Driver : Type := mkDriver {
  respond : list Event -> Stmt -> QueryResult;
  connectFault : list Event -> option Exn;
  parseInt : JsValue -> JsNumber
}.

(** How an awaited call ends; [Pending] is a promise that never settles. *)
Inductive Outcome (A : Type) : Type :=
| Returned (a : A)
| Raised (e : Exn)
| Pending.
Arguments Returned {A} a.
Arguments Raised {A} e.
Arguments Pending {A}.

Definition M (S A : Type) : Type := S -> Outcome A * S.

Definition ret {S A : Type} (a : A) : M S A := fun s => (Returned a, s).
Definition throw {S A : Type} (e : Exn) : M S A := fun s => (Raised e, s).

Definition bind {S A B : Type} (m : M S A) (k : A -> M S B) : M S B :=
  fun s =>
    match m s with
    | (Returned a, s') => k a s'
    | (Raised e, s') => (Raised e, s')
    | (Pending, s') => (Pending, s')
    end.

Notation "x <- m ;; k" := (bind m (fun x => k))
  (at level 61, m at next level, right associativity).
Notation "m ;;; k" := (bind m (fun _ => k))
  (at level 61, right associativity).

(** [try { body } catch (error) { handler }]. *)
Definition tryCatch {S A : Type} (body : M S A) (handler : Exn -> M S A) : M S A :=
  fun s =>
    match body s with
    | (Raised e, s') => handler e s'
    | other => other
    end.

(** [try { body } finally { fin }]: [fin] runs once [body] has settled; the
    outcome is that of [body] unless [fin] itself fails. *)
Definition tryFinally {S A : Type} (body : M S A) (fin : M S unit) : M S A :=
  fun s =>
    match body s with
    | (Pending, s') => (Pending, s')
    | (o, s') =>
        match fin s' with
        | (Returned _, s'') => (o, s'')
        | (Raised e, s'') => (Raised e, s'')
        | (Pending, s'') => (Pending, s'')
        end
    end.

Definition logEvent (e : Event) (w : World) : World :=
  mkWorld (available w) (push (trace w) e).

Definition console_error (label : string) (e : Exn) : M World unit :=
  fun w => (Returned tt, logEvent (ConsoleError label e) w).

(** Hand a statement to the driver; a rejection is raised at the [await]. *)
Definition send (drv : Driver) (via : Channel) (s : Stmt) : M World (list Row) :=
  fun w =>
    match respond drv (trace w) s with
    | Rows rows => (Returned rows, logEvent (Sent via s) w)
    | Rejects e => (Raised e, logEvent (Sent via s) w)
    end.

Definition pool_query (drv : Driver) (text : string) (ps : list JsValue) : M World (list Row) :=
  send drv ViaPool (mkStmt text ps).

Inductive PoolClient : Type := Connection.

(** [pool.connect()]: rejects when the driver cannot connect, waits while no
    connection is available, otherwise takes one out of the pool. *)
Definition pool_connect (drv : Driver) : M World PoolClient :=
  fun w =>
    match connectFault drv (trace w) with
    | Some e => (Raised e, w)
    | None =>
        match available w with
        | O => (Pending, w)
        | S n => (Returned Connection, mkWorld n (push (trace w) Checkout))
        end
    end.

Definition client_query (drv : Driver) (client : PoolClient) (text : string)
    (ps : list JsValue) : M World (list Row) :=
  send drv ViaClient (mkStmt text ps).

Definition client_release (client : PoolClient) : M World unit :=
  fun w => (Returned tt, mkWorld (S (available w)) (push (trace w) Released)).

(* ===================================================================== *)
(** ** Terminal operations of the builder *)
(* ===================================================================== *)

(** A method body runs against the receiver object and the world. *)
Definition Self : Type := (QueryBuilder * World)%type.

Definition this : M Self QueryBuilder := fun s => (Returned (fst s), s).

Definition liftW {A : Type} (m : M World A) : M Self A :=
  fun s => let '(o, w') := m (snd s) in (o, (fst s, w')).

Record Envelope (T : Type) : Type := mkEnvelope { data : option T; error : option Exn }.
Arguments mkEnvelope {T} data error.
Arguments data {T} e.
Arguments error {T} e.

Record CountEnvelope : Type := mkCount { count_ : JsNumber; countError : option Exn }.

Definition count (drv : Driver) : M Self CountEnvelope :=
  tryCatch
    (b <- this ;;
     let s := countStmt b in
     rows <- liftW (pool_query drv (text s) (params s)) ;;
     match rows with
     | [] => throw (TypeError "Cannot read properties of undefined (reading 'count')")
     | row0 :: _ => ret (mkCount (parseInt drv (prop "count" row0)) None)
     end)
    (fun error =>
       liftW (console_error "[PostgresClient] Erro ao contar registros:" error) ;;;
       ret (mkCount (Num 0) (Some error))).

Definition execute (drv : Driver) : M Self (Envelope (list Row)) :=
  tryCatch
    (b <- this ;;
     let s := executeStmt b in
     rows <- liftW (pool_query drv (text s) (params s)) ;;
     ret (mkEnvelope (Some rows) None))
    (fun error =>
       liftW (console_error "[PostgresClient] Erro ao executar query:" error) ;;;
       ret (mkEnvelope None (Some error))).

Definition insert (drv : Driver) (record : Row) : M Self QueryBuilder :=
  b <- this ;;
  let s := insertStmt b record in
  tryCatch
    (rows <- liftW (pool_query drv (text s) (params s)) ;;
     ret (setData rows (newBuilder (table b))))
    (fun error =>
       liftW (console_error "[PostgresClient] Erro ao inserir dados:" error) ;;;
       ret (setError error (newBuilder (table b)))).

Definition update (drv : Driver) (record : Row) : M Self QueryBuilder :=
  b <- this ;;
  tryCatch
    (let s := updateStmt b record in
     rows <- liftW (pool_query drv (text s) (params s)) ;;
     ret (setData rows (newBuilder (table b))))
    (fun error =>
       liftW (console_error "[PostgresClient] Erro ao atualizar dados:" error) ;;;
       ret (setError error (newBuilder (table b)))).

Definition delete (drv : Driver) : M Self QueryBuilder :=
  b <- this ;;
  tryCatch
    (let s := deleteStmt b in
     rows <- liftW (pool_query drv (text s) (params s)) ;;
     ret (setData rows (newBuilder (table b))))
    (fun error =>
       liftW (console_error "[PostgresClient] Erro ao excluir dados:" error) ;;;
       ret (setError error (newBuilder (table b)))).

(* ===================================================================== *)
(** ** [PostgresClient]: [from], [query], [transaction] *)
(* ===================================================================== *)

Definition from (t : string) : QueryBuilder := newBuilder t.

Definition query (drv : Driver) (text : string) (ps : list JsValue)
    : M World (Envelope (list Row)) :=
  tryCatch
    (rows <- pool_query drv text ps ;;
     ret (mkEnvelope (Some rows) None))
    (fun error =>
       console_error "[PostgresClient] Erro ao executar query:" error ;;;
       ret (mkEnvelope None (Some error))).

(** A unit of work in the sense of the specification: it issues statements
    on the connection it is given, sees each answer (a rejection can be
    caught inside the callback or left to propagate with [Throw]), and ends
    by returning a value or raising.  It has no access to the pool, writes
    nothing to the console and always settles: a callback that also queries
    through the pool, logs, or stays pending is outside this model. *)
Inductive Work (T : Type) : Type :=
| Done (result : T)
| Throw (e : Exn)
| Ask (text : string) (ps : list JsValue) (k : QueryResult -> Work T).
Arguments Done {T} result.
Arguments Throw {T} e.
Arguments Ask {T} text ps k.

(** [await client.query(text, ps)] with the rejection left to propagate. *)
Definition ask {T : Type} (text : string) (ps : list JsValue)
    (k : list Row -> Work T) : Work T :=
  Ask text ps (fun r => match r with Rows rows => k rows | Rejects e => Throw e end).

Fixpoint runWork (drv : Driver) {T : Type} (u : Work T) : M World T :=
  fun w =>
    match u with
    | Done r => (Returned r, w)
    | Throw e => (Raised e, w)
    | Ask text ps k =>
        runWork drv (k (respond drv (trace w) (mkStmt text ps)))
                (logEvent (Sent ViaClient (mkStmt text ps)) w)
    end.

Definition transaction (drv : Driver) {T : Type} (callback : PoolClient -> Work T)
    : M World (Envelope T) :=
  client <- pool_connect drv ;;
  tryFinally
    (tryCatch
       (client_query drv client "BEGIN" [] ;;;
        result <- runWork drv (callback client) ;;
        client_query drv client "COMMIT" [] ;;;
        ret (mkEnvelope (Some result) None))
       (fun error =>
          client_query drv client "ROLLBACK" [] ;;;
          console_error "[PostgresClient] Erro na transação:" error ;;;
          ret (mkEnvelope None (Some error))))
    (client_release client).

(* ===================================================================== *)
(** ** Calling a method on the value of an [async] call *)
(* ===================================================================== *)

(** [insert], [update] and [delete] are declared [async]: the value of the
    call expression is a promise, and only [await] yields the builder the
    body returns. *)
Inductive Callee : Type :=
| TheBuilder (b : QueryBuilder)
| ThePromise (settles : Outcome QueryBuilder).

(** Evaluate [receiver.m(...)] for an [async] method [m] without awaiting.
    The statement the body hands to the pool is handed over before the
    caller continues, as in the source; what the body writes to the console
    once the answer is there is placed in the trace at the same point,
    whereas the real run writes it after the caller has gone on. *)
Definition callAsync (m : M Self QueryBuilder) (receiver : QueryBuilder) : M World Callee :=
  fun w => let '(o, (_, w')) := m (receiver, w) in (Returned (ThePromise o), w').

(** [await receiver.m(...)]. *)
Definition await (m : M Self QueryBuilder) (receiver : QueryBuilder) : M World QueryBuilder :=
  fun w => let '(o, (_, w')) := m (receiver, w) in (o, w').

(** [x.execute()]: a promise has no [execute] property.  The message of the
    [TypeError] is shortened; Node puts the text of the call expression
    before [.execute]. *)
Definition callExecute (drv : Driver) (x : Callee) : M World (Envelope (list Row)) :=
  match x with
  | TheBuilder b => fun w => let '(o, (_, w')) := execute drv (b, w) in (o, w')
  | ThePromise _ => throw (TypeError "execute is not a function")
  end.

(** [postgres.from(table).insert(record).execute()], as the services write it. *)
Definition insertExecuteChain (drv : Driver) (t : string) (record : Row)
    : M World (Envelope (list Row)) :=
  x <- callAsync (insert drv record) (from t) ;;
  callExecute drv x.

(** [(await postgres.from(table).insert(record)).execute()]: the chain read
    with the return type the source declares for [insert]. *)
Definition insertAwaitExecute (drv : Driver) (t : string) (record : Row)
    : M World (Envelope (list Row)) :=
  b <- await (insert drv record) (from t) ;;
  callExecute drv (TheBuilder b).

(* ===================================================================== *)
(** ** Chains of calls on one builder *)
(* ===================================================================== *)

Inductive FilterCall : Type :=
| CallEq (column : string) (value : JsValue)
| CallNeq (column : string) (value : JsValue)
| CallGt (column : string) (value : JsValue)
| CallLt (column : string) (value : JsValue)
| CallGte (column : string) (value : JsValue)
| CallLte (column : string) (value : JsValue)
| CallIn (column : string) (vals : list JsValue)
| CallLike (column : string) (pattern : JsValue)
| CallIlike (column : string) (pattern : JsValue).

Definition applyFilter (c : FilterCall) (b : QueryBuilder) : QueryBuilder :=
  match c with
  | CallEq col v => eq col v b
  | CallNeq col v => neq col v b
  | CallGt col v => gt col v b
  | CallLt col v => lt col v b
  | CallGte col v => gte col v b
  | CallLte col v => lte col v b
  | CallIn col vs => in_ col vs b
  | CallLike col v => like col v b
  | CallIlike col v => ilike col v b
  end.

(** [b.c1(...).c2(...)...]: the calls applied left to right. *)
Definition chain (cs : list FilterCall) (b : QueryBuilder) : QueryBuilder :=
  fold_left (fun acc c => applyFilter c acc) cs b.

(** Any chainable call, filters and the others. *)
Inductive ChainCall : Type :=
| Filter (c : FilterCall)
| Select (p : Projection)
| OrderBy (column : string) (direction : Direction)
| Limit (value : Z)
| Offset (value : Z)
| Single.

Definition applyCall (c : ChainCall) (b : QueryBuilder) : QueryBuilder :=
  match c with
  | Filter f => applyFilter f b
  | Select p => select p b
  | OrderBy col d => orderBy col d b
  | Limit v => limit v b
  | Offset v => offset v b
  | Single => single b
  end.

Definition chainCalls (cs : list ChainCall) (b : QueryBuilder) : QueryBuilder :=
  fold_left (fun acc c => applyCall c acc) cs b.

Definition isFilter (c : ChainCall) : bool :=
  match c with Filter _ => true | _ => false end.

(** *** The reading of the specification, to compare the code with *)

(** The values a filter call contributes, in element order. *)
Definition boundValues (c : FilterCall) : list JsValue :=
  match c with
  | CallEq _ v | CallNeq _ v | CallGt _ v | CallLt _ v | CallGte _ v
  | CallLte _ v | CallLike _ v | CallIlike _ v => [v]
  | CallIn _ vs => vs
  end.

(** The placeholder [$k]. *)
Definition placeholder (k : nat) : string := "$" ++ showNat k.

(** The placeholders of a call whose first value is the [k]-th bound value. *)
Definition placeholdersFrom (k : nat) (c : FilterCall) : list string :=
  map placeholder (seq k (List.length (boundValues c))).

(** The predicate text of a call whose placeholders are [$k], [$k+1], ... *)
Definition predicateText (k : nat) (c : FilterCall) : string :=
  match c with
  | CallEq col _ => col ++ " = " ++ placeholder k
  | CallNeq col _ => col ++ " != " ++ placeholder k
  | CallGt col _ => col ++ " > " ++ placeholder k
  | CallLt col _ => col ++ " < " ++ placeholder k
  | CallGte col _ => col ++ " >= " ++ placeholder k
  | CallLte col _ => col ++ " <= " ++ placeholder k
  | CallLike col _ => col ++ " LIKE " ++ placeholder k
  | CallIlike col _ => col ++ " ILIKE " ++ placeholder k
  | CallIn col _ => col ++ " IN (" ++ join ", " (placeholdersFrom k c) ++ ")"
  end.

(** The same call with every value replaced by [null]. *)
Definition eraseValues (c : FilterCall) : FilterCall :=
  match c with
  | CallEq col _ => CallEq col JNull
  | CallNeq col _ => CallNeq col JNull
  | CallGt col _ => CallGt col JNull
  | CallLt col _ => CallLt col JNull
  | CallGte col _ => CallGte col JNull
  | CallLte col _ => CallLte col JNull
  | CallLike col _ => CallLike col JNull
  | CallIlike col _ => CallIlike col JNull
  | CallIn col vs => CallIn col (map (fun _ => JNull) vs)
  end.

(** Everything of a builder that reaches the text of a statement. *)
Definition textual (b : QueryBuilder)
    : string * list string * list string * list string * Direction
      * option Z * option Z * nat :=
  (table b, columns b, whereConditions b, orderByColumns b, orderDirection b,
   limitValue b, offsetValue b, paramCount b).

(* ===================================================================== *)
(** ** Drivers used at concrete inputs *)
(* ===================================================================== *)

(** A stand-in for [parseInt] in the drivers of the examples: numbers are
    passed through and everything else is [NaN], whereas [parseInt] also
    reads the digits of a string.  The theorems are stated for any [parseInt]
    and none evaluates this one. *)
Definition parseIntNumbers (v : JsValue) : JsNumber :=
  match v with JNum z => Num z | _ => NaN end.

(** A driver that rejects exactly the statements whose text is [bad]. *)
Definition rejecting (bad : string) (e : Exn) : Driver :=
  mkDriver (fun _ s => if String.eqb (text s) bad then Rejects e else Rows [])
           (fun _ => None)
           parseIntNumbers.

(** A driver that accepts exactly the statements whose text is [good]. *)
Definition acceptingOnly (good : string) (rows : list Row) (e : Exn) : Driver :=
  mkDriver (fun _ s => if String.eqb (text s) good then Rows rows else Rejects e)
           (fun _ => None)
           parseIntNumbers.

(** A driver that accepts everything. *)
Definition healthy : Driver :=
  mkDriver (fun _ _ => Rows []) (fun _ => None) parseIntNumbers.

(* ===================================================================== *)
(** ** Observations on a run *)
(* ===================================================================== *)

(** How often a connection was released, and checked out, in a trace. *)
Fixpoint released (tr : list Event) : nat :=
  match tr with
  | [] => 0
  | Released :: tr' => S (released tr')
  | _ :: tr' => released tr'
  end.

Fixpoint checkedOut (tr : list Event) : nat :=
  match tr with
  | [] => 0
  | Checkout :: tr' => S (checkedOut tr')
  | _ :: tr' => checkedOut tr'
  end.

(** Whether [pool.connect()] resolves in this world. *)
Definition checksOut (drv : Driver) (w : World) : bool :=
  match connectFault drv (trace w), available w with
  | None, S _ => true
  | _, _ => false
  end.

(** The world right after the checkout, after a statement on the client,
    and after the release. *)
Definition afterCheckout (w : World) : World :=
  mkWorld (Nat.pred (available w)) (push (trace w) Checkout).

Definition afterClientQuery (text : string) (w : World) : World :=
  logEvent (Sent ViaClient (mkStmt text [])) w.

Definition afterRelease (w : World) : World :=
  mkWorld (S (available w)) (push (trace w) Released).

(** Whether the driver accepts a parameterless statement in this world. *)
Definition accepts (drv : Driver) (w : World) (text : string) : bool :=
  match respond drv (trace w) (mkStmt text []) with
  | Rows _ => true
  | Rejects _ => false
  end.

(** The [catch] block of [transaction] entered with [error] in world [w],
    followed by the [finally] block. *)
Definition catchThenFinally (drv : Driver) {T : Type} (error : Exn) (w : World)
    : Outcome (Envelope T) * World :=
  match respond drv (trace w) (mkStmt "ROLLBACK" []) with
  | Rows _ =>
      (Returned (mkEnvelope None (Some error)),
       afterRelease (logEvent (ConsoleError "[PostgresClient] Erro na transação:" error)
                              (afterClientQuery "ROLLBACK" w)))
  | Rejects rollbackError =>
      (Raised rollbackError, afterRelease (afterClientQuery "ROLLBACK" w))
  end.

(* ===================================================================== *)
(** ** Concrete inputs *)
(* ===================================================================== *)

Definition openOrdersById : list FilterCall :=
  [CallEq "status" (JStr "open"); CallIn "id" [JNum 7; JNum 9]].

Definition honestCalls : list FilterCall :=
  [CallEq "name" (JStr "Drinks"); CallIn "id" [JNum 1; JNum 2]].

Definition hostileCalls : list FilterCall :=
  [CallEq "name" (JStr "x' OR '1'='1");
   CallIn "id" [JStr "); DROP TABLE t; --"; JNull]].

Definition serializationFailure : Exn :=
  DriverError "40001" "could not serialize access".

(** A unit of work that inserts one row and returns 7. *)
Definition insertOneCategory (client : PoolClient) : Work Z :=
  ask "INSERT INTO categories (id, name) VALUES ($1, $2)"
      [JStr "c1"; JStr "Drinks"]
      (fun _ => Done 7%Z).

(** A unit of work that raises at once. *)
Definition failingWork (e : Exn) (client : PoolClient) : Work Z := Throw e.

(** A unit of work that returns 42 without a statement. *)
Definition returns42 (client : PoolClient) : Work Z := Done 42%Z.

(* ===================================================================== *)
(** ** The error classifier and JavaScript's truthiness *)
(* ===================================================================== *)

(** [!v] is false, for the values modelled here. *)
Definition truthy (v : JsValue) : bool :=
  match v with
  | JUndefined | JNull => false
  | JBool b => b
  | JNum z => negb (Z.eqb z 0)
  | JStr s => negb (String.eqb s "")
  end.

(** What [handlePostgresError] can be handed ([any]): a primitive value, or
    an object, of which only the properties matter. *)
Inductive Thrown : Type :=
| Primitive (v : JsValue)
| Properties (o : Row).

(** [error.name] for a value that is truthy: primitives other than [null] and
    [undefined] have no such property. *)
Definition readProp (name : string) (error : Thrown) : JsValue :=
  match error with
  | Primitive _ => JUndefined
  | Properties o => prop name o
  end.

Definition isFalsy (error : Thrown) : bool :=
  match error with
  | Primitive v => negb (truthy v)
  | Properties _ => false
  end.

(** The object a driver rejection, a [TypeError] or an [Error] is. *)
Definition thrownOf (e : Exn) : Thrown :=
  match e with
  | DriverError code message => Properties [("code", JStr code); ("message", JStr message)]
  | TypeError message => Properties [("message", JStr message)]
  | UserError message => Properties [("message", JStr message)]
  end.

(** [handlePostgresError] of [postgresClient.ts]: the [switch] compares
    [error.code] with [===], so only a string can match a case. *)
Definition handlePostgresError (error : Thrown) : JsValue :=
  if isFalsy error then JStr "Erro desconhecido"
  else
    let fallback := if truthy (readProp "message" error)
                    then readProp "message" error
                    else JStr "Erro desconhecido" in
    match readProp "code" error with
    | JStr code =>
        if String.eqb code "23505" then JStr "Registro duplicado"
        else if String.eqb code "23503" then JStr "Violação de chave estrangeira"
        else if String.eqb code "23502" then JStr "Valor não pode ser nulo"
        else if String.eqb code "42P01" then JStr "Tabela não existe"
        else if String.eqb code "42703" then JStr "Coluna não existe"
        else fallback
    | _ => fallback
    end.

(** [handleError], the private copy in the test service. *)
Definition handleError (error : Thrown) : JsValue :=
  if isFalsy error then JStr "Erro desconhecido"
  else
    let fallback := if truthy (readProp "message" error)
                    then readProp "message" error
                    else JStr "Erro desconhecido" in
    match readProp "code" error with
    | JStr code =>
        if String.eqb code "23505" then JStr "Registro duplicado"
        else if String.eqb code "23503" then JStr "Violação de chave estrangeira"
        else if String.eqb code "23502" then JStr "Valor não pode ser nulo"
        else if String.eqb code "42P01" then JStr "Tabela não existe"
        else if String.eqb code "42703" then JStr "Coluna não existe"
        else fallback
    | _ => fallback
    end.

(** The five codes the classifier knows. *)
Definition knownCodes : list (string * string) :=
  [("23505", "Registro duplicado");
   ("23503", "Violação de chave estrangeira");
   ("23502", "Valor não pode ser nulo");
   ("42P01", "Tabela não existe");
   ("42703", "Coluna não existe")].

(* ===================================================================== *)
(** ** What a chain of calls amounts to *)
(* ===================================================================== *)

(** The filter calls of a chain, in order. *)
Definition filtersOf (cs : list ChainCall) : list FilterCall :=
  flat_map (fun c => match c with Filter f => [f] | _ => [] end) cs.

(** The projection, ordering, limit and offset in force after a chain that
    started with the given ones: the last call of each kind. *)
Definition lastColumns (cs : list ChainCall) (start : list string) : list string :=
  fold_left (fun acc c => match c with
                          | Select (OneColumn c) => [c]
                          | Select (Columns cols) => cols
                          | _ => acc
                          end) cs start.

Definition lastOrder (cs : list ChainCall) (start : list string * Direction)
    : list string * Direction :=
  fold_left (fun acc c => match c with
                          | OrderBy col d => ([col], d)
                          | _ => acc
                          end) cs start.

Definition lastLimit (cs : list ChainCall) (start : option Z) : option Z :=
  fold_left (fun acc c => match c with
                          | Limit v => Some v
                          | Single => Some 1%Z
                          | _ => acc
                          end) cs start.

Definition lastOffset (cs : list ChainCall) (start : option Z) : option Z :=
  fold_left (fun acc c => match c with
                          | Offset v => Some v
                          | _ => acc
                          end) cs start.

(** The placeholders [$1 .. $n] paired with the columns of a record. *)
Definition numbered (columns : list string) : list (nat * string) :=
  combine (seq 1 (List.length columns)) columns.

(* ===================================================================== *)
(** ** One statement through the pool *)
(* ===================================================================== *)

(** Between [w] and [w'] exactly the statement [s] went to the pool, the
    console received the given entry (if any) after it, and nothing else
    happened. *)
Definition sentOnce (w w' : World) (s : Stmt) (logged : option (string * Exn)) : Prop :=
  available w' = available w
  /\ trace w'
     = (trace w ++ Sent ViaPool s ::
          match logged with
          | None => []
          | Some (label, e) => [ConsoleError label e]
          end)%list.

(* ===================================================================== *)
(** ** Callers: the category functions of the data service *)
(* ===================================================================== *)

(** [await b.m()] for a terminal operation [m] called on the builder [b]. *)
Definition runOn {A : Type} (b : QueryBuilder) (m : M Self A) : M World A :=
  fun w => let '(o, (_, w')) := m (b, w) in (o, w').

(** [x.eq(column, value)]: a promise has no [eq] property (the message is
    shortened as for [execute]). *)
Definition callEq (column : string) (value : JsValue) (x : Callee) : M World Callee :=
  match x with
  | TheBuilder b => ret (TheBuilder (eq column value b))
  | ThePromise _ => throw (TypeError "eq is not a function")
  end.


(** [data && data.length > 0 ? data[0] : null]. *)
Definition firstRow (data : option (list Row)) : option Row :=
  match data with
  | Some (row0 :: _) => Some row0
  | _ => None
  end.

(** [fetchCategories]. *)
Definition fetchCategories (drv : Driver) : M World (Envelope (list Row)) :=
  tryCatch
    (env <- runOn (orderBy "name" ASC (select (OneColumn "*") (from "categories")))
                  (execute drv) ;;
     match error env with
     | Some error =>
         console_error "[DataService] Erro ao buscar categorias:" error ;;;
         ret (mkEnvelope None (Some error))
     | None => ret (mkEnvelope (data env) None)
     end)
    (fun error =>
       console_error "[DataService] Exceção ao buscar categorias:" error ;;;
       ret (mkEnvelope None (Some error))).

(** [addCategory(name)]; [categoryId] and [now] are what [uuidv4()] and
    [new Date().toISOString()] returned. *)
Definition addCategory (drv : Driver) (categoryId now : string) (name : string)
    : M World (Envelope Row) :=
  tryCatch
    (let categoryData :=
       [("id", JStr categoryId); ("name", JStr name); ("created_at", JStr now)] in
     x <- callAsync (insert drv categoryData) (from "categories") ;;
     env <- callExecute drv x ;;
     match error env with
     | Some error =>
         console_error "[DataService] Erro ao adicionar categoria:" error ;;;
         ret (mkEnvelope None (Some error))
     | None => ret (mkEnvelope (firstRow (data env)) None)
     end)
    (fun error =>
       console_error "[DataService] Exceção ao adicionar categoria:" error ;;;
       ret (mkEnvelope None (Some error))).

(** [updateCategory(category)], with [category.id] and [category.name]. *)
Definition updateCategory (drv : Driver) (id name : string) : M World (Envelope Row) :=
  tryCatch
    (x <- callAsync (update drv [("name", JStr name)]) (from "categories") ;;
     y <- callEq "id" (JStr id) x ;;
     env <- callExecute drv y ;;
     match error env with
     | Some error =>
         console_error "[DataService] Erro ao atualizar categoria:" error ;;;
         ret (mkEnvelope None (Some error))
     | None => ret (mkEnvelope (firstRow (data env)) None)
     end)
    (fun error =>
       console_error "[DataService] Exceção ao atualizar categoria:" error ;;;
       ret (mkEnvelope None (Some error))).




(* ===================================================================== *)
(** ** Callers: [fetchOrders] *)
(* ===================================================================== *)

(** The property key a value is converted to in [obj[value]]; for a number
    this is its decimal numeral, which is right for the integers JavaScript
    holds exactly. *)
Definition toPropertyKey (v : JsValue) : string :=
  match v with
  | JUndefined => "undefined"
  | JNull => "null"
  | JBool true => "true"
  | JBool false => "false"
  | JNum z => showZ z
  | JStr s => s
  end.

(** The names every object literal inherits from [Object.prototype]. *)
Definition objectPrototypeNames : list string :=
  ["constructor"; "__defineGetter__"; "__defineSetter__"; "hasOwnProperty";
   "__lookupGetter__"; "__lookupSetter__"; "isPrototypeOf";
   "propertyIsEnumerable"; "toString"; "valueOf"; "__proto__"; "toLocaleString"].

Definition objectPrototypeHas (k : string) : bool :=
  existsb (String.eqb k) objectPrototypeNames.

(** [itemsByOrder]: the own properties of the object, each an array. *)
Definition Groups : Type := list (string * list Row).

Fixpoint ownProp (k : string) (g : Groups) : option (list Row) :=
  match g with
  | [] => None
  | (k', items) :: g' => if String.eqb k' k then Some items else ownProp k g'
  end.

(** [itemsByOrder[k].push(item)] for an own property [k]. *)
Fixpoint pushTo (k : string) (item : Row) (g : Groups) : Groups :=
  match g with
  | [] => []
  | (k', items) :: g' =>
      if String.eqb k' k then (k', push items item) :: g'
      else (k', items) :: pushTo k item g'
  end.

(** What [itemsByOrder[k]] evaluates to. *)
Inductive Lookup : Type :=
| Own (items : list Row)
| Inherited
| Missing.

Definition lookupGroup (k : string) (g : Groups) : Lookup :=
  match ownProp k g with
  | Some items => Own items
  | None => if objectPrototypeHas k then Inherited else Missing
  end.

Definition orderKey (item : Row) : string := toPropertyKey (prop "order_id" item).
Definition idKey (order : Row) : string := toPropertyKey (prop "id" order).

(** One round of the [forEach]: an inherited value is truthy and has no
    [push]. *)
Definition addItem (g : Groups) (item : Row) : Exn + Groups :=
  match lookupGroup (orderKey item) g with
  | Own _ => inr (pushTo (orderKey item) item g)
  | Inherited => inl (TypeError "itemsByOrder[item.order_id].push is not a function")
  | Missing => inr (pushTo (orderKey item) item (push g (orderKey item, [])))
  end.

Fixpoint groupItems (g : Groups) (items : list Row) : Exn + Groups :=
  match items with
  | [] => inr g
  | item :: rest =>
      match addItem g item with
      | inl e => inl e
      | inr g' => groupItems g' rest
      end
  end.

(** The [items] property of an order in the result:
    [itemsByOrder[order.id] || []]. *)
Inductive ItemsField : Type :=
| ItemsArray (items : list Row)
| InheritedValue (name : string).

Definition itemsFor (g : Groups) (order : Row) : ItemsField :=
  match lookupGroup (idKey order) g with
  | Own items => ItemsArray items
  | Inherited => InheritedValue (idKey order)
  | Missing => ItemsArray []
  end.

(** The [data] of [fetchOrders]: the orders as they came, or each order
    spread into a new object with its [items]. *)
Inductive OrdersData : Type :=
| Orders (rows : list Row)
| OrdersWithItems (rows : list (Row * ItemsField)).

Definition fetchOrders (drv : Driver) : M World (Envelope OrdersData) :=
  tryCatch
    (env <- runOn (orderBy "order_time" DESC (select (OneColumn "*") (from "orders")))
                  (execute drv) ;;
     match error env with
     | Some error =>
         console_error "[DataService] Erro ao buscar pedidos:" error ;;;
         ret (mkEnvelope None (Some error))
     | None =>
         match data env with
         | Some (order0 :: more) =>
             let orders := order0 :: more in
             ienv <- runOn (in_ "order_id" (map (prop "id") orders)
                              (select (OneColumn "*") (from "order_items")))
                           (execute drv) ;;
             match error ienv with
             | Some itemsError =>
                 console_error "[DataService] Erro ao buscar itens dos pedidos:"
                               itemsError ;;;
                 ret (mkEnvelope (Some (Orders orders)) None)
             | None =>
                 match groupItems [] (match data ienv with
                                      | Some itemsData => itemsData
                                      | None => []
                                      end) with
                 | inl e => throw e
                 | inr itemsByOrder =>
                     ret (mkEnvelope
                            (Some (OrdersWithItems
                                     (map (fun order => (order, itemsFor itemsByOrder order))
                                          orders)))
                            None)
                 end
             end
         | Some [] => ret (mkEnvelope (Some (Orders [])) None)
         | None => ret (mkEnvelope None None)
         end
     end)
    (fun error =>
       console_error "[DataService] Exceção ao buscar pedidos:" error ;;;
       ret (mkEnvelope None (Some error))).

(** The items of one order, as the grouping should find them. *)
Definition itemsOf (order : Row) (items : list Row) : list Row :=
  filter (fun item => String.eqb (orderKey item) (idKey order)) items.

(** The text of [SELECT * FROM order_items WHERE order_id IN ($1, ..., $n)]. *)
Definition itemsQueryText (n : nat) : string :=
  ("SELECT * FROM order_items" ++ " WHERE " ++ "order_id IN ("
   ++ join ", " (map placeholder (seq 1 n)) ++ ")").

(** The statements handed to the driver in a trace, oldest first. *)
Fixpoint statements (tr : list Event) : list Stmt :=
  match tr with
  | [] => []
  | Sent _ s :: tr' => s :: statements tr'
  | _ :: tr' => statements tr'
  end.

(** The statements of the category functions. *)
Definition categoriesQuery : Stmt :=
  mkStmt "SELECT * FROM categories ORDER BY name ASC" [].

Definition categoryInsert (categoryId now name : string) : Stmt :=
  mkStmt (LF ++ "        INSERT INTO categories (id, name, created_at)"
          ++ LF ++ "        VALUES ($1, $2, $3)"
          ++ LF ++ "        RETURNING *"
          ++ LF ++ "      ")
         [JStr categoryId; JStr name; JStr now].

Definition categoryUpdate (name : string) : Stmt :=
  mkStmt (LF ++ "        UPDATE categories"
          ++ LF ++ "        SET name = $1"
          ++ LF ++ "       RETURNING *")
         [JStr name].



Definition ordersQuery : Stmt :=
  mkStmt "SELECT * FROM orders ORDER BY order_time DESC" [].

(** A database with two orders and three order items. *)
Definition twoOrdersThreeItems : Driver :=
  mkDriver
    (fun _ s =>
       if String.eqb (text s) "SELECT * FROM orders ORDER BY order_time DESC"
       then Rows [[("id", JStr "o1")]; [("id", JStr "o2")]]
       else Rows [[("order_id", JStr "o1"); ("name", JStr "Margherita")];
                  [("order_id", JStr "o2"); ("name", JStr "Calzone")];
                  [("order_id", JStr "o1"); ("name", JStr "Cola")]])
    (fun _ => None)
    parseIntNumbers.

(* ===================================================================== *)
(** ** Callers: the cash register and the sessions of the auth service *)
(* ===================================================================== *)

(** [error.message] of a thrown error. *)
Definition messageOf (e : Exn) : string :=
  match e with
  | DriverError _ message => message
  | TypeError message => message
  | UserError message => message
  end.

(** [s.includes(sub)]. *)
Fixpoint includes (sub s : string) : bool :=
  if String.prefix sub s then true
  else match s with
       | EmptyString => false
       | String _ s' => includes sub s'
       end.

(** [`${v}`] for a primitive value. *)
Definition templateOf (v : JsValue) : string :=
  match v with
  | JUndefined => "undefined"
  | JNull => "null"
  | JBool true => "true"
  | JBool false => "false"
  | JNum z => showZ z
  | JStr s => s
  end.

(** [notes || null] for an optional string argument. *)
Definition orNull (notes : option string) : JsValue :=
  match notes with
  | Some s => if String.eqb s "" then JNull else JStr s
  | None => JNull
  end.

(** [fetchActiveCashSession]; [OPEN] is [CashRegisterSessionStatus.OPEN],
    declared outside the sources at hand. *)
Definition fetchActiveCashSession (drv : Driver) (OPEN : JsValue)
    : M World (Envelope (list Row)) :=
  tryCatch
    (env <- runOn (single (eq "status" OPEN
                     (select (OneColumn "*") (from "cash_register_sessions"))))
                  (execute drv) ;;
     match error env with
     | Some error =>
         if negb (String.eqb (messageOf error) "")
            && includes "Nenhum registro encontrado" (messageOf error)
         then ret (mkEnvelope None None)
         else
           console_error "[CashService] Erro ao buscar sessão de caixa ativa:" error ;;;
           ret (mkEnvelope None (Some error))
     | None => ret (mkEnvelope (data env) None)
     end)
    (fun error =>
       console_error "[CashService] Exceção ao buscar sessão de caixa ativa:" error ;;;
       ret (mkEnvelope None (Some error))).

(** The record [openCashRegister] inserts. *)
Definition sessionRecord (OPEN : JsValue) (sessionId now : string)
    (openingBalance : JsValue) (notes : option string) : Row :=
  [("id", JStr sessionId);
   ("opening_balance", openingBalance);
   ("closing_balance", JNull);
   ("closing_balance_informed", JNull);
   ("opened_at", JStr now);
   ("closed_at", JNull);
   ("status", OPEN);
   ("notes", orNull notes);
   ("difference", JNull)].

(** [openCashRegister(openingBalance, notes)]; [sessionId] and [now] are what
    [uuidv4()] and [new Date().toISOString()] return.  [if (activeSession)]
    tests an array or [null]: an array is truthy, also when it is empty. *)
Definition openCashRegister (drv : Driver) (OPEN : JsValue) (sessionId now : string)
    (openingBalance : JsValue) (notes : option string) : M World (Envelope Row) :=
  tryCatch
    (active <- fetchActiveCashSession drv OPEN ;;
     match data active with
     | Some activeSession =>
         ret (mkEnvelope None
                (Some (UserError "Já existe uma sessão de caixa aberta. Feche a sessão atual antes de abrir uma nova.")))
     | None =>
         x <- callAsync (insert drv (sessionRecord OPEN sessionId now openingBalance notes))
                        (from "cash_register_sessions") ;;
         env <- callExecute drv x ;;
         match error env with
         | Some error =>
             console_error "[CashService] Erro ao abrir caixa:" error ;;;
             ret (mkEnvelope None (Some error))
         | None => ret (mkEnvelope (firstRow (data env)) None)
         end
     end)
    (fun error =>
       console_error "[CashService] Exceção ao abrir caixa:" error ;;;
       ret (mkEnvelope None (Some error))).

(** [signOut(sessionId)]: the [{error}] it resolves to.  Whatever is caught
    here is an instance of [Error]. *)
Definition signOut (drv : Driver) (sessionId : string) : M World (option Exn) :=
  tryCatch
    (x <- callAsync (delete drv) (from "sessions") ;;
     y <- callEq "id" (JStr sessionId) x ;;
     env <- callExecute drv y ;;
     match error env with
     | Some error =>
         ret (Some (UserError ("Erro ao fazer logout: "
                               ++ templateOf (handlePostgresError (thrownOf error)))))
     | None => ret None
     end)
    (fun error =>
       console_error "[AuthService] Erro ao fazer logout:" error ;;;
       ret (Some error)).

(** The result of [signIn]. *)
Record SignInResult : Type := mkSignIn {
  user : option Row;
  session : option Row;
  signInError : option Exn
}.

(** [const { password_hash, ...userWithoutPassword } = user]. *)
Definition withoutPassword (user : Row) : Row :=
  filter (fun kv => negb (String.eqb (fst kv) "password_hash")) user.

Definition wrongCredentials : SignInResult :=
  mkSignIn None None (Some (UserError "Email ou senha incorretos")).

(** [await bcrypt.compare(...)]: the library's answer, or its rejection. *)
Definition awaitCompare {S : Type} (answer : Exn + bool) : M S bool :=
  match answer with
  | inl e => throw e
  | inr valid => ret valid
  end.

(** [signIn(email, password)]; [bcryptCompare] is [bcrypt.compare], and
    [sessionId], [now], [expiresAt] are what [uuidv4()] and the two dates
    give.  Whatever is caught here is an instance of [Error]. *)
Definition signIn (drv : Driver) (bcryptCompare : string -> JsValue -> Exn + bool)
    (sessionId now expiresAt : string) (email password : string)
    : M World SignInResult :=
  tryCatch
    (env <- runOn (eq "email" (JStr email) (select (OneColumn "*") (from "users")))
                  (execute drv) ;;
     match error env, data env with
     | None, Some (user0 :: _) =>
         isPasswordValid <- awaitCompare (bcryptCompare password (prop "password_hash" user0)) ;;
         if negb isPasswordValid then ret wrongCredentials
         else
           x <- callAsync (insert drv [("id", JStr sessionId);
                                       ("user_id", prop "id" user0);
                                       ("created_at", JStr now);
                                       ("expires_at", JStr expiresAt)])
                          (from "sessions") ;;
           senv <- callExecute drv x ;;
           match error senv, data senv with
           | None, Some (session0 :: _) =>
               ret (mkSignIn (Some (withoutPassword user0)) (Some session0) None)
           | sessionError, _ =>
               ret (mkSignIn None None
                      (Some (UserError
                         ("Erro ao criar sessão: "
                          ++ templateOf (handlePostgresError
                                           match sessionError with
                                           | Some e => thrownOf e
                                           | None => Primitive JNull
                                           end)))))
           end
     | _, _ => ret wrongCredentials
     end)
    (fun error =>
       console_error "[AuthService] Erro ao fazer login:" error ;;;
       ret (mkSignIn None None (Some error))).

(** The statements of these functions. *)
Definition activeSessionQuery (OPEN : JsValue) : Stmt :=
  mkStmt "SELECT * FROM cash_register_sessions WHERE status = $1 LIMIT 1" [OPEN].

Definition sessionsDelete : Stmt :=
  mkStmt (LF ++ "        DELETE FROM sessions" ++ LF ++ "       RETURNING *") [].

Definition usersByEmail (email : string) : Stmt :=
  mkStmt "SELECT * FROM users WHERE email = $1" [JStr email].

Definition sessionInsert (sessionId now expiresAt : string) (userId : JsValue) : Stmt :=
  mkStmt (LF ++ "        INSERT INTO sessions (id, user_id, created_at, expires_at)"
          ++ LF ++ "        VALUES ($1, $2, $3, $4)"
          ++ LF ++ "        RETURNING *"
          ++ LF ++ "      ")
         [JStr sessionId; userId; JStr now; JStr expiresAt].

(* ===================================================================== *)
(** ** The statements, as the specification words them *)
(* ===================================================================== *)

(** The predicates of a sequence of filter calls when the next free
    placeholder is [$k]: each call takes as many placeholders as it has
    values. *)
Fixpoint predicatesFrom (k : nat) (cs : list FilterCall) : list string :=
  match cs with
  | [] => []
  | c :: cs' => predicateText k c :: predicatesFrom (k + List.length (boundValues c)) cs'
  end.

(** [SELECT * FROM t], followed by [WHERE p1 AND ... AND pn] when there is a
    predicate. *)
Definition selectAllText (t : string) (cs : list FilterCall) : string :=
  match cs with
  | [] => "SELECT * FROM " ++ t
  | _ :: _ => ("SELECT * FROM " ++ t) ++ " WHERE " ++ join " AND " (predicatesFrom 1 cs)
  end.

(** What [insert], [update] and [delete] do with their statement [s]: it goes
    to the pool once; an answer with rows resolves to a new builder for the
    same table holding the rows, a rejection is logged under [label] and
    resolves to a new builder holding the error; the receiver is untouched. *)
Definition sendsAndWraps (drv : Driver) (b : QueryBuilder) (w : World) (s : Stmt)
    (label : string) : Outcome QueryBuilder * Self :=
  match respond drv (trace w) s with
  | Rows rows =>
      (Returned (setData rows (newBuilder (table b))),
       (b, logEvent (Sent ViaPool s) w))
  | Rejects e =>
      (Returned (setError e (newBuilder (table b))),
       (b, logEvent (ConsoleError label e) (logEvent (Sent ViaPool s) w)))
  end.

(** What [execute] does with its statement [s]. *)
Definition sendsAndReturns (drv : Driver) (b : QueryBuilder) (w : World) (s : Stmt)
    : Outcome (Envelope (list Row)) * Self :=
  match respond drv (trace w) s with
  | Rows rows =>
      (Returned (mkEnvelope (Some rows) None),
       (b, logEvent (Sent ViaPool s) w))
  | Rejects e =>
      (Returned (mkEnvelope None (Some e)),
       (b, logEvent (ConsoleError "[PostgresClient] Erro ao executar query:" e)
                    (logEvent (Sent ViaPool s) w)))
  end.

(** The [SET] list of [update]: [column = $i] for the [i]-th column, from 1. *)
Definition setList (columns : list string) : string :=
  join ", " (map (fun p => snd p ++ " = " ++ placeholder (fst p)) (numbered columns)).

(** A value whose property key is its decimal numeral or the string itself:
    for a number, an integer that JavaScript holds exactly and prints without
    exponent. *)
Definition plainKey (v : JsValue) : bool :=
  match v with
  | JNum z => Z.leb (Z.abs z) 9007199254740991
  | _ => true
  end.

(** Two chains that show what [in] does with lists of different lengths. *)
Definition oneId : list FilterCall := [CallIn "id" [JNum 1]].
Definition twoIds : list FilterCall := [CallIn "id" [JNum 1; JNum 2]].

(* ===================================================================== *)
(** * Properties *)
(* ===================================================================== *)

(** ** Arrays and numbering *)

Lemma mapi_from_indices {A B : Type} (g : nat -> B) (xs : list A) (i0 : nat) :
  mapi_from (fun _ i => g i) i0 xs = map g (seq i0 (List.length xs)).
Proof.
  revert i0; induction xs as [|x xs IH]; intros i0; simpl.
  - reflexivity.
  - now rewrite IH.
Qed.

Lemma chain_app (cs ds : list FilterCall) (b : QueryBuilder) :
  chain (cs ++ ds)%list b = chain ds (chain cs b).
Proof. unfold chain. apply fold_left_app. Qed.

Lemma chain_snoc (cs : list FilterCall) (c : FilterCall) (b : QueryBuilder) :
  chain (cs ++ [c])%list b = applyFilter c (chain cs b).
Proof. rewrite chain_app. reflexivity. Qed.

(** One call, as the specification reads it: it appends its predicate,
    numbered from the current [paramCount], and its values. *)
Lemma applyFilter_spec (c : FilterCall) (b : QueryBuilder) :
  whereConditions (applyFilter c b)
    = (whereConditions b ++ [predicateText (paramCount b) c])%list
  /\ whereParams (applyFilter c b) = (whereParams b ++ boundValues c)%list
  /\ paramCount (applyFilter c b) = paramCount b + List.length (boundValues c).
Proof.
  destruct c; simpl; unfold push, pushAll, placeholder; repeat split;
    try reflexivity; try lia.
  unfold placeholdersFrom, mapi; simpl.
  rewrite mapi_from_indices.
  rewrite <- (map_map (fun i => paramCount b + i) (fun k => "$" ++ showNat k)).
  replace (map (fun i => paramCount b + i) (seq 0 (List.length vals)))
    with (seq (paramCount b) (List.length vals)); [reflexivity|].
  clear. generalize (paramCount b) as k. intro k.
  rewrite <- (Nat.add_0_r k) at 1.
  generalize 0 as j. induction (List.length vals) as [|n IH]; intro j; simpl.
  - reflexivity.
  - f_equal. rewrite <- IH. f_equal. lia.
Qed.

Lemma chain_params (cs : list FilterCall) (b : QueryBuilder) :
  whereParams (chain cs b) = (whereParams b ++ flat_map boundValues cs)%list.
Proof.
  induction cs as [|c cs IH] using rev_ind.
  - simpl. now rewrite app_nil_r.
  - rewrite chain_snoc, flat_map_app. simpl. rewrite app_nil_r.
    destruct (applyFilter_spec c (chain cs b)) as (_ & Hp & _).
    rewrite Hp, IH. now rewrite app_assoc.
Qed.

Lemma chain_paramCount (cs : list FilterCall) (b : QueryBuilder) :
  paramCount (chain cs b) = paramCount b + List.length (flat_map boundValues cs).
Proof.
  induction cs as [|c cs IH] using rev_ind.
  - simpl. lia.
  - rewrite chain_snoc, flat_map_app, length_app. simpl. rewrite app_nil_r.
    destruct (applyFilter_spec c (chain cs b)) as (_ & _ & Hn).
    rewrite Hn, IH. lia.
Qed.

Lemma chain_conditions_length (cs : list FilterCall) (b : QueryBuilder) :
  List.length (whereConditions (chain cs b))
    = List.length (whereConditions b) + List.length cs.
Proof.
  induction cs as [|c cs IH] using rev_ind.
  - simpl. lia.
  - rewrite chain_snoc.
    destruct (applyFilter_spec c (chain cs b)) as (Hc & _ & _).
    rewrite Hc, !length_app, IH. simpl. lia.
Qed.

(** The [i]-th call of a chain leaves the predicate the specification
    expects, numbered after all the values bound before it. *)
Lemma chain_condition_nth (cs : list FilterCall) (b : QueryBuilder) (i : nat)
    (c : FilterCall) :
  nth_error cs i = Some c ->
  nth_error (whereConditions (chain cs b)) (List.length (whereConditions b) + i)
    = Some (predicateText
              (paramCount b + List.length (flat_map boundValues (firstn i cs))) c).
Proof.
  revert i c. induction cs as [|d cs IH] using rev_ind; intros i c Hi.
  - destruct i; discriminate.
  - rewrite chain_snoc.
    destruct (applyFilter_spec d (chain cs b)) as (Hc & _ & _). rewrite Hc.
    assert (Hlen : i < List.length (cs ++ [d])%list)
      by (apply nth_error_Some; congruence).
    rewrite length_app in Hlen. simpl in Hlen.
    destruct (Nat.eq_dec i (List.length cs)) as [->|Hne].
    + rewrite nth_error_app2 in Hi by lia.
      rewrite Nat.sub_diag in Hi. simpl in Hi. injection Hi as ->.
      rewrite nth_error_app2 by (rewrite chain_conditions_length; lia).
      rewrite chain_conditions_length.
      replace (_ + _ - _) with 0 by lia. simpl.
      rewrite firstn_app, firstn_all, Nat.sub_diag. simpl. rewrite app_nil_r.
      now rewrite chain_paramCount.
    + rewrite nth_error_app1 in Hi by lia.
      rewrite nth_error_app1 by (rewrite chain_conditions_length; lia).
      rewrite firstn_app.
      replace (i - List.length cs) with 0 by lia. simpl. rewrite app_nil_r.
      now apply IH.
Qed.

(** Where the [j]-th value of the [i]-th call sits among all bound values. *)
Lemma flat_map_nth {A B : Type} (f : A -> list B) (xs : list A) (i j : nat)
    (x : A) (y : B) :
  nth_error xs i = Some x ->
  nth_error (f x) j = Some y ->
  nth_error (flat_map f xs) (List.length (flat_map f (firstn i xs)) + j) = Some y.
Proof.
  revert i. induction xs as [|a xs IH]; intros i Hi Hj.
  - destruct i; discriminate.
  - destruct i as [|i]; simpl in *.
    + injection Hi as ->. rewrite nth_error_app1; [assumption|].
      apply nth_error_Some. congruence.
    + rewrite length_app, <- Nat.add_assoc.
      rewrite nth_error_app2 by lia.
      replace (_ + _ - _) with (List.length (flat_map f (firstn i xs)) + j) by lia.
      now apply IH.
Qed.

Lemma placeholdersFrom_nth (k j : nat) (c : FilterCall) (v : JsValue) :
  nth_error (boundValues c) j = Some v ->
  nth_error (placeholdersFrom k c) j = Some (placeholder (k + j)).
Proof.
  intros Hj. unfold placeholdersFrom.
  assert (j < List.length (boundValues c)) by (apply nth_error_Some; congruence).
  rewrite nth_error_map, nth_error_seq.
  destruct (Nat.ltb_spec j (List.length (boundValues c))); [reflexivity | lia].
Qed.

(** ** What reaches the text of a statement *)

Lemma applyFilter_textual (c1 c2 : FilterCall) (b1 b2 : QueryBuilder) :
  textual b1 = textual b2 ->
  eraseValues c1 = eraseValues c2 ->
  textual (applyFilter c1 b1) = textual (applyFilter c2 b2).
Proof.
  unfold textual. intros Hb Hc.
  injection Hb as Ht Hcols Hconds Hord Hdir Hlim Hoff Hn.
  destruct c1 as [c v|c v|c v|c v|c v|c v|c vs|c v|c v],
           c2 as [c' v'|c' v'|c' v'|c' v'|c' v'|c' v'|c' vs'|c' v'|c' v'];
    simpl in Hc; try discriminate; injection Hc as Hcol;
    subst; simpl; rewrite ?Ht, ?Hcols, ?Hconds, ?Hord, ?Hdir, ?Hlim, ?Hoff, ?Hn;
    try reflexivity.
  match goal with
  | Hvs : map _ vs = map _ vs' |- _ =>
      assert (Hlen : List.length vs = List.length vs')
        by (rewrite <- (length_map (fun _ => JNull) vs), Hvs; apply length_map)
  end.
  unfold mapi. rewrite !mapi_from_indices, Hlen. reflexivity.
Qed.

Lemma chain_textual (cs1 cs2 : list FilterCall) (b1 b2 : QueryBuilder) :
  textual b1 = textual b2 ->
  map eraseValues cs1 = map eraseValues cs2 ->
  textual (chain cs1 b1) = textual (chain cs2 b2).
Proof.
  revert cs2 b1 b2. induction cs1 as [|c1 cs1 IH]; intros [|c2 cs2] b1 b2 Hb Hcs;
    simpl in Hcs; try discriminate.
  - assumption.
  - injection Hcs as Hc Hcs. simpl. apply IH; [|assumption].
    now apply applyFilter_textual.
Qed.

Lemma statements_textual (b1 b2 : QueryBuilder) :
  textual b1 = textual b2 ->
  text (executeStmt b1) = text (executeStmt b2)
  /\ text (countStmt b1) = text (countStmt b2)
  /\ text (deleteStmt b1) = text (deleteStmt b2)
  /\ forall record, text (updateStmt b1 record) = text (updateStmt b2 record).
Proof.
  unfold textual. intros Hb.
  injection Hb as Ht Hcols Hconds Hord Hdir Hlim Hoff Hn.
  unfold executeStmt, countStmt, deleteStmt, updateStmt, addWhere.
  rewrite Ht, Hcols, Hconds, Hord, Hdir, Hlim, Hoff.
  repeat split. intros record. destruct (whereConditions b2); reflexivity.
Qed.

(** ** What the terminal operations send *)

Lemma execute_run (drv : Driver) (b : QueryBuilder) (w : World) :
  execute drv (b, w)
  = match respond drv (trace w) (executeStmt b) with
    | Rows rows =>
        (Returned (mkEnvelope (Some rows) None),
         (b, logEvent (Sent ViaPool (executeStmt b)) w))
    | Rejects e =>
        (Returned (mkEnvelope None (Some e)),
         (b, logEvent (ConsoleError "[PostgresClient] Erro ao executar query:" e)
                      (logEvent (Sent ViaPool (executeStmt b)) w)))
    end.
Proof.
  unfold execute, tryCatch, bind, this, liftW, pool_query, send, console_error, ret.
  simpl. destruct (respond drv (trace w) _); reflexivity.
Qed.

Lemma count_run (drv : Driver) (b : QueryBuilder) (w : World) :
  count drv (b, w)
  = match respond drv (trace w) (countStmt b) with
    | Rows (row0 :: _) =>
        (Returned (mkCount (parseInt drv (prop "count" row0)) None),
         (b, logEvent (Sent ViaPool (countStmt b)) w))
    | Rows [] =>
        let e := TypeError "Cannot read properties of undefined (reading 'count')" in
        (Returned (mkCount (Num 0) (Some e)),
         (b, logEvent (ConsoleError "[PostgresClient] Erro ao contar registros:" e)
                      (logEvent (Sent ViaPool (countStmt b)) w)))
    | Rejects e =>
        (Returned (mkCount (Num 0) (Some e)),
         (b, logEvent (ConsoleError "[PostgresClient] Erro ao contar registros:" e)
                      (logEvent (Sent ViaPool (countStmt b)) w)))
    end.
Proof.
  unfold count, tryCatch, bind, this, liftW, pool_query, send, console_error, ret, throw.
  simpl. destruct (respond drv (trace w) _) as [[|row0 rows]|e]; reflexivity.
Qed.

Lemma insert_run (drv : Driver) (record : Row) (b : QueryBuilder) (w : World) :
  insert drv record (b, w)
  = match respond drv (trace w) (insertStmt b record) with
    | Rows rows =>
        (Returned (setData rows (newBuilder (table b))),
         (b, logEvent (Sent ViaPool (insertStmt b record)) w))
    | Rejects e =>
        (Returned (setError e (newBuilder (table b))),
         (b, logEvent (ConsoleError "[PostgresClient] Erro ao inserir dados:" e)
                      (logEvent (Sent ViaPool (insertStmt b record)) w)))
    end.
Proof.
  unfold insert, tryCatch, bind, this, liftW, pool_query, send, console_error, ret.
  simpl. destruct (respond drv (trace w) _); reflexivity.
Qed.

Lemma update_run (drv : Driver) (record : Row) (b : QueryBuilder) (w : World) :
  update drv record (b, w)
  = match respond drv (trace w) (updateStmt b record) with
    | Rows rows =>
        (Returned (setData rows (newBuilder (table b))),
         (b, logEvent (Sent ViaPool (updateStmt b record)) w))
    | Rejects e =>
        (Returned (setError e (newBuilder (table b))),
         (b, logEvent (ConsoleError "[PostgresClient] Erro ao atualizar dados:" e)
                      (logEvent (Sent ViaPool (updateStmt b record)) w)))
    end.
Proof.
  unfold update, tryCatch, bind, this, liftW, pool_query, send, console_error, ret.
  simpl. destruct (updateStmt b record) as [q ps]. simpl.
  destruct (respond drv (trace w) _); reflexivity.
Qed.

Lemma delete_run (drv : Driver) (b : QueryBuilder) (w : World) :
  delete drv (b, w)
  = match respond drv (trace w) (deleteStmt b) with
    | Rows rows =>
        (Returned (setData rows (newBuilder (table b))),
         (b, logEvent (Sent ViaPool (deleteStmt b)) w))
    | Rejects e =>
        (Returned (setError e (newBuilder (table b))),
         (b, logEvent (ConsoleError "[PostgresClient] Erro ao excluir dados:" e)
                      (logEvent (Sent ViaPool (deleteStmt b)) w)))
    end.
Proof.
  unfold delete, tryCatch, bind, this, liftW, pool_query, send, console_error, ret.
  simpl. destruct (respond drv (trace w) _); reflexivity.
Qed.

(** The envelope of the builder's own terminal operations: the awaited value
    of [execute] and [count] never has both fields set, the builder that
    [insert], [update] and [delete] resolve to carries [data] or [error], and
    none of the five raises. *)
Lemma builder_operations_envelope (drv : Driver) (b : QueryBuilder) (w : World)
    (record : Row) :
  (exists env s', execute drv (b, w) = (Returned env, s')
     /\ (data env = None \/ error env = None)
     /\ (data env = None -> error env <> None))
  /\ (exists c s', count drv (b, w) = (Returned c, s')
     /\ (countError c <> None -> count_ c = Num 0))
  /\ (forall op, In op [insert drv record; update drv record; delete drv] ->
      exists b' s', op (b, w) = (Returned b', s')
        /\ ((exists rows, data_ b' = Holds rows /\ error_ b' = IsNull)
            \/ (exists e, data_ b' = IsNull /\ error_ b' = Holds e))).
Proof.
  split; [|split].
  - rewrite execute_run. destruct (respond _ _ _); eexists; eexists;
      (split; [reflexivity|]); simpl; split; auto; congruence.
  - rewrite count_run. destruct (respond _ _ _) as [[|r rs]|e]; eexists; eexists;
      (split; [reflexivity|]); simpl; congruence.
  - intros op [<-|[<-|[<-|[]]]];
      rewrite ?insert_run, ?update_run, ?delete_run;
      destruct (respond _ _ _); eexists; eexists; (split; [reflexivity|]); simpl;
      eauto.
Qed.

(** ** Placeholder numbering *)

(** Filters touch nothing but the predicates, their values and the counter. *)
Lemma chain_keeps_settings (cs : list FilterCall) (b : QueryBuilder) :
  table (chain cs b) = table b
  /\ columns (chain cs b) = columns b
  /\ orderByColumns (chain cs b) = orderByColumns b
  /\ limitValue (chain cs b) = limitValue b
  /\ offsetValue (chain cs b) = offsetValue b.
Proof.
  induction cs as [|c cs IH] using rev_ind.
  - repeat split.
  - rewrite chain_snoc. destruct IH as (?&?&?&?&?).
    destruct c; simpl; repeat split; assumption.
Qed.

(** The predicates a chain leaves are those the specification words, numbered
    from the builder's counter. *)
Lemma chain_conditions (cs : list FilterCall) (b : QueryBuilder) :
  whereConditions (chain cs b)
  = (whereConditions b ++ predicatesFrom (paramCount b) cs)%list.
Proof.
  revert b. induction cs as [|c cs IH]; intros b.
  - simpl. now rewrite app_nil_r.
  - change (chain (c :: cs) b) with (chain cs (applyFilter c b)).
    rewrite IH. destruct (applyFilter_spec c b) as (Hc & _ & Hn).
    rewrite Hc, Hn. simpl. now rewrite <- app_assoc.
Qed.

Lemma predicatesFrom_length (k : nat) (cs : list FilterCall) :
  List.length (predicatesFrom k cs) = List.length cs.
Proof. revert k. induction cs as [|c cs IH]; intros k; simpl; congruence. Qed.

Lemma predicatesFrom_nth (cs : list FilterCall) (k i : nat) (c : FilterCall) :
  nth_error cs i = Some c ->
  nth_error (predicatesFrom k cs) i
  = Some (predicateText (k + List.length (flat_map boundValues (firstn i cs))) c).
Proof.
  revert k i. induction cs as [|d cs IH]; intros k [|i] Hi; simpl in *;
    try discriminate.
  - injection Hi as ->. now rewrite Nat.add_0_r.
  - rewrite (IH _ _ Hi), length_app. do 2 f_equal. lia.
Qed.

(** The statement of [execute] after a chain of filters on a fresh builder,
    spelled out. *)
Lemma executeStmt_fresh_chain (t : string) (cs : list FilterCall) :
  executeStmt (chain cs (from t))
  = mkStmt (selectAllText t cs) (flat_map boundValues cs).
Proof.
  destruct (chain_keeps_settings cs (from t)) as (Ht & Hc & Ho & Hl & Hf).
  unfold executeStmt, addWhere.
  rewrite Ht, Hc, Ho, Hl, Hf, chain_conditions, chain_params.
  simpl. destruct cs as [|c cs]; reflexivity.
Qed.

Lemma execute_sends (drv : Driver) (b : QueryBuilder) (w : World) :
  execute drv (b, w) = sendsAndReturns drv b w (executeStmt b).
Proof. apply execute_run. Qed.

(** C5. On a fresh builder, after any sequence of filter calls, [execute]
    sends [SELECT * FROM <table>], followed, when there is a call, by
    [WHERE] and the calls' predicates joined by [AND], with the values of the
    calls in call order as parameters.  The [i]-th predicate has its
    placeholders numbered after all the values bound before it, one per value
    in element order, so that placeholder [$k] stands where the [k]-th
    accumulated value is bound.  This holds for the empty sequence too. *)
Theorem placeholder_k_binds_kth_value (drv : Driver) (t : string)
    (cs : list FilterCall) (w : World) :
  let b := chain cs (from t) in
  params (executeStmt b) = flat_map boundValues cs
  /\ text (executeStmt b)
     = match cs with
       | [] => "SELECT * FROM " ++ t
       | _ :: _ => ("SELECT * FROM " ++ t) ++ " WHERE "
                   ++ join " AND " (predicatesFrom 1 cs)
       end
  /\ List.length (whereConditions b) = List.length cs
  /\ (forall i c, nth_error cs i = Some c ->
        let k0 := 1 + List.length (flat_map boundValues (firstn i cs)) in
        nth_error (whereConditions b) i = Some (predicateText k0 c)
        /\ nth_error (predicatesFrom 1 cs) i = Some (predicateText k0 c)
        /\ forall j v, nth_error (boundValues c) j = Some v ->
             nth_error (placeholdersFrom k0 c) j = Some (placeholder (k0 + j))
             /\ nth_error (params (executeStmt b)) (k0 + j - 1) = Some v)
  /\ (exists env evs,
        execute drv (b, w)
        = (Returned env,
           (b, mkWorld (available w)
                 (trace w ++ Sent ViaPool (executeStmt b) :: evs)%list)))
  /\ execute drv (b, w)
     = sendsAndReturns drv b w (mkStmt (selectAllText t cs) (flat_map boundValues cs)).
Proof.
  intros b.
  assert (Hstmt : executeStmt b = mkStmt (selectAllText t cs) (flat_map boundValues cs))
    by apply executeStmt_fresh_chain.
  assert (Hps : params (executeStmt b) = flat_map boundValues cs)
    by (now rewrite Hstmt).
  split; [exact Hps|]. split; [now rewrite Hstmt|].
  split; [unfold b; now rewrite chain_conditions_length|].
  split; [|split].
  - intros i c Hi k0. split; [|split].
    + exact (chain_condition_nth cs (from t) i c Hi).
    + exact (predicatesFrom_nth cs 1 i c Hi).
    + intros j v Hj. split.
      * eapply placeholdersFrom_nth; eassumption.
      * rewrite Hps. unfold k0.
        replace (1 + List.length (flat_map boundValues (firstn i cs)) + j - 1)
          with (List.length (flat_map boundValues (firstn i cs)) + j) by lia.
        eapply flat_map_nth; eassumption.
  - rewrite execute_run. unfold logEvent, push.
    destruct (respond drv (trace w) (executeStmt b)); simpl.
    + eexists; exists []; reflexivity.
    + eexists; eexists. rewrite <- app_assoc. reflexivity.
  - rewrite execute_sends, Hstmt. reflexivity.
Qed.

Lemma placeholder_k_binds_kth_value_witness :
  nth_error openOrdersById 1 = Some (CallIn "id" [JNum 7; JNum 9])
  /\ nth_error (boundValues (CallIn "id" [JNum 7; JNum 9])) 1 = Some (JNum 9)
  /\ text (executeStmt (chain openOrdersById (from "orders")))
     = "SELECT * FROM orders WHERE status = $1 AND id IN ($2, $3)"
  /\ nth_error (whereConditions (chain openOrdersById (from "orders"))) 1
     = Some "id IN ($2, $3)"
  /\ nth_error (params (executeStmt (chain openOrdersById (from "orders")))) (2 + 1 - 1)
     = Some (JNum 9).
Proof.
  destruct (placeholder_k_binds_kth_value healthy "orders" openOrdersById (mkWorld 1 []))
    as (_ & Htext & _ & H & _).
  destruct (H 1 (CallIn "id" [JNum 7; JNum 9]) eq_refl) as (Hc & _ & Hv).
  destruct (Hv 1 (JNum 9) eq_refl) as (_ & Hp).
  split; [reflexivity|]. split; [reflexivity|]. split; [exact Htext|].
  split; [exact Hc | exact Hp].
Defined.

Lemma predicateText_erase (k : nat) (c : FilterCall) :
  predicateText k (eraseValues c) = predicateText k c
  /\ List.length (boundValues (eraseValues c)) = List.length (boundValues c).
Proof.
  destruct c; simpl; split; try reflexivity.
  - unfold placeholdersFrom. simpl. now rewrite length_map.
  - apply length_map.
Qed.

Lemma predicatesFrom_erase (k : nat) (cs : list FilterCall) :
  predicatesFrom k (map eraseValues cs) = predicatesFrom k cs.
Proof.
  revert k. induction cs as [|c cs IH]; intros k; simpl; [reflexivity|].
  destruct (predicateText_erase k c) as (-> & ->). now rewrite IH.
Qed.

Lemma selectAllText_erase (t : string) (cs : list FilterCall) :
  selectAllText t (map eraseValues cs) = selectAllText t cs.
Proof.
  unfold selectAllText. destruct cs as [|c cs]; [reflexivity|].
  change (map eraseValues (c :: cs)) with (eraseValues c :: map eraseValues cs).
  cbv iota. now rewrite <- (predicatesFrom_erase 1 (c :: cs)).
Qed.

(** C8, as amended.  The text of the statement does not depend on what the
    values passed to the filters are, only, for [in], on how many there are:
    two chains of the same calls on the same columns, with lists of the same
    length for [in], compose the same text, for [execute] and for the other
    operations that reuse the predicates.  The values are the parameters of
    the statement, in call order, after those the builder held before; on a
    fresh builder the text is the one composed from the calls with every
    value replaced by [null]. *)
Theorem statement_text_independent_of_values (drv : Driver)
    (cs1 cs2 : list FilterCall) (b : QueryBuilder) (t : string) (w : World) :
  map eraseValues cs1 = map eraseValues cs2 ->
  text (executeStmt (chain cs1 b)) = text (executeStmt (chain cs2 b))
  /\ text (countStmt (chain cs1 b)) = text (countStmt (chain cs2 b))
  /\ text (deleteStmt (chain cs1 b)) = text (deleteStmt (chain cs2 b))
  /\ (forall record, text (updateStmt (chain cs1 b) record)
                     = text (updateStmt (chain cs2 b) record))
  /\ params (executeStmt (chain cs1 b)) = (whereParams b ++ flat_map boundValues cs1)%list
  /\ params (executeStmt (chain cs2 b)) = (whereParams b ++ flat_map boundValues cs2)%list
  /\ text (executeStmt (chain cs1 (from t))) = selectAllText t (map eraseValues cs2)
  /\ execute drv (chain cs1 b, w)
     = sendsAndReturns drv (chain cs1 b) w
         (mkStmt (text (executeStmt (chain cs2 b)))
                 (whereParams b ++ flat_map boundValues cs1)%list).
Proof.
  intros Hcs.
  destruct (statements_textual (chain cs1 b) (chain cs2 b)
              (chain_textual cs1 cs2 b b eq_refl Hcs)) as (He & Hc & Hd & Hu).
  assert (Hp : forall cs, params (executeStmt (chain cs b))
                          = (whereParams b ++ flat_map boundValues cs)%list).
  { intros cs. unfold executeStmt. simpl. apply chain_params. }
  repeat split; try assumption; try apply Hp.
  - rewrite executeStmt_fresh_chain. simpl.
    rewrite <- Hcs. symmetry. apply selectAllText_erase.
  - rewrite execute_sends. f_equal.
    rewrite <- He, <- Hp. destruct (executeStmt (chain cs1 b)); reflexivity.
Qed.

Lemma statement_text_independent_of_values_witness :
  map eraseValues honestCalls = map eraseValues hostileCalls
  /\ text (executeStmt (chain hostileCalls (from "t")))
     = "SELECT * FROM t WHERE name = $1 AND id IN ($2, $3)"
  /\ params (executeStmt (chain hostileCalls (from "t")))
     = [JStr "x' OR '1'='1"; JStr "); DROP TABLE t; --"; JNull].
Proof.
  split; [reflexivity|].
  destruct (statement_text_independent_of_values healthy honestCalls hostileCalls
              (from "t") "t" (mkWorld 1 []) eq_refl)
    as (H & _ & _ & _ & _ & Hp & _).
  split; [rewrite <- H; reflexivity | exact Hp].
Defined.

(** C8, as stated, fails for [in]: two calls that differ only in the list of
    values compose different texts when the lists differ in length, one
    placeholder being written per value. *)
Lemma in_text_depends_on_number_of_values_counterexample :
  text (executeStmt (chain oneId (from "t"))) = "SELECT * FROM t WHERE id IN ($1)"
  /\ text (executeStmt (chain twoIds (from "t"))) = "SELECT * FROM t WHERE id IN ($1, $2)"
  /\ text (executeStmt (chain oneId (from "t")))
     <> text (executeStmt (chain twoIds (from "t"))).
Proof.
  split; [reflexivity|]. split; [reflexivity|]. discriminate.
Qed.

(** ** [count] *)

(** Rewrite the [execute] that follows in the goal with what it sends. *)
Ltac next_execute Hex :=
  match goal with
  | |- context [execute _ (_, ?w0)] =>
      let env := fresh "env" in
      let evs := fresh "evs" in
      destruct (Hex w0) as (env & evs & ->); eauto
  end.

(** C9. [count] sends [SELECT COUNT FROM] the table with the accumulated
    predicates joined by [AND] and with their parameters, whatever the
    projection, the ordering, the limit and the offset are; the receiver is
    the same builder afterwards, so [execute] called next on it sends the
    statement it would have sent before. *)
Theorem count_reads_filters_and_keeps_builder (drv : Driver) (b : QueryBuilder)
    (w : World) :
  countStmt b
  = mkStmt match whereConditions b with
           | [] => "SELECT COUNT(*) FROM " ++ table b
           | _ :: _ => ("SELECT COUNT(*) FROM " ++ table b)
                       ++ " WHERE " ++ join " AND " (whereConditions b)
           end
           (whereParams b)
  /\ (forall p col d l o,
        countStmt (select p (orderBy col d (limit l (offset o b)))) = countStmt b
        /\ countStmt (single b) = countStmt b)
  /\ exists c evs w',
       count drv (b, w) = (Returned c, (b, w'))
       /\ available w' = available w
       /\ trace w' = (trace w ++ Sent ViaPool (countStmt b) :: evs)%list
       /\ (forall via s, ~ In (Sent via s) evs)
       /\ exists env evs',
            execute drv (b, w')
            = (Returned env,
               (b, mkWorld (available w)
                     (trace w' ++ Sent ViaPool (executeStmt b) :: evs')%list)).
Proof.
  split; [reflexivity|]. split.
  - intros p col d l o. split; [destruct p|]; reflexivity.
  - assert (Hex : forall w0, exists env evs',
              execute drv (b, w0)
              = (Returned env,
                 (b, mkWorld (available w0)
                       (trace w0 ++ Sent ViaPool (executeStmt b) :: evs')%list))).
    { intros w0. rewrite execute_run. unfold logEvent, push.
      destruct (respond drv (trace w0) (executeStmt b)); simpl.
      - eexists; exists []; reflexivity.
      - eexists; eexists. rewrite <- app_assoc. reflexivity. }
    rewrite count_run. unfold logEvent, push.
    destruct (respond drv (trace w) (countStmt b)) as [[|row0 rows]|e]; simpl.
    + eexists; eexists; eexists. split; [reflexivity|]. simpl.
      split; [reflexivity|]. split; [rewrite <- app_assoc; reflexivity|].
      split; [intros via s [H|[]]; discriminate|].
      next_execute Hex.
    + eexists; exists []; eexists. split; [reflexivity|]. simpl.
      split; [reflexivity|]. split; [reflexivity|].
      split; [intros via s []|].
      next_execute Hex.
    + eexists; eexists; eexists. split; [reflexivity|]. simpl.
      split; [reflexivity|]. split; [rewrite <- app_assoc; reflexivity|].
      split; [intros via s [H|[]]; discriminate|].
      next_execute Hex.
Qed.

(** ** [update] and [delete] *)

Lemma chainCalls_snoc (cs : list ChainCall) (c : ChainCall) (b : QueryBuilder) :
  chainCalls (cs ++ [c])%list b = applyCall c (chainCalls cs b).
Proof. unfold chainCalls. rewrite fold_left_app. reflexivity. Qed.

(** Only filter calls add predicates, and each adds exactly one; values are
    bound only together with a predicate. *)
Lemma chainCalls_conditions (cs : list ChainCall) (t : string) :
  List.length (whereConditions (chainCalls cs (from t)))
    = List.length (filter isFilter cs)
  /\ (filter isFilter cs = [] -> whereParams (chainCalls cs (from t)) = []).
Proof.
  induction cs as [|c cs [IHn IHp]] using rev_ind.
  - split; reflexivity.
  - rewrite chainCalls_snoc, filter_app. destruct c as [f|p| | | |]; simpl;
      rewrite ?app_nil_r; try (split; [exact IHn | exact IHp]).
    + destruct (applyFilter_spec f (chainCalls cs (from t))) as (Hc & _ & _).
      rewrite Hc, !length_app, IHn. simpl. split; [reflexivity|].
      intros H. apply app_eq_nil in H. destruct H; discriminate.
    + destruct p; simpl; split; assumption.
Qed.

Lemma mapi_from_numbered (ks : list string) (i0 : nat) :
  mapi_from (fun col i => col ++ " = $" ++ showNat (i + 1)) i0 ks
  = map (fun p => snd p ++ " = " ++ placeholder (fst p))
        (combine (seq (i0 + 1) (List.length ks)) ks).
Proof.
  revert i0. induction ks as [|k ks IH]; intros i0; simpl; [reflexivity|].
  f_equal. exact (IH (S i0)).
Qed.

Lemma delete_sends (drv : Driver) (b : QueryBuilder) (w : World) :
  delete drv (b, w)
  = sendsAndWraps drv b w (deleteStmt b) "[PostgresClient] Erro ao excluir dados:".
Proof. apply delete_run. Qed.

Lemma update_sends (drv : Driver) (record : Row) (b : QueryBuilder) (w : World) :
  update drv record (b, w)
  = sendsAndWraps drv b w (updateStmt b record)
      "[PostgresClient] Erro ao atualizar dados:".
Proof. apply update_run. Qed.


(** C10. With no accumulated predicate, [delete()] sends
    [DELETE FROM <table> RETURNING *] and [update(record)] sends its [SET]
    list followed by [RETURNING *], bound to the record's values alone:
    neither statement has a [WHERE] clause.  With at least one predicate the
    clause [WHERE p1 AND ... AND pn] precedes [RETURNING *], and [update]
    binds the filters' values after the record's.  On a builder made by
    [from], the predicate list is empty exactly when no filter was called. *)
Theorem delete_update_where_only_with_filters (drv : Driver) (b : QueryBuilder)
    (record : Row) (w : World) :
  (whereConditions b = [] ->
     text (deleteStmt b)
       = (LF ++ "        DELETE FROM " ++ table b ++ LF ++ "      ") ++ " RETURNING *"
     /\ updateStmt b record
        = mkStmt ((LF ++ "        UPDATE " ++ table b ++ LF ++ "        SET "
                   ++ setClause record ++ LF ++ "      ") ++ " RETURNING *")
                 (values record)
     /\ delete drv (b, w)
        = sendsAndWraps drv b w
            (mkStmt ((LF ++ "        DELETE FROM " ++ table b ++ LF ++ "      ")
                     ++ " RETURNING *")
                    (whereParams b))
            "[PostgresClient] Erro ao excluir dados:"
     /\ update drv record (b, w)
        = sendsAndWraps drv b w
            (mkStmt ((LF ++ "        UPDATE " ++ table b ++ LF ++ "        SET "
                      ++ setList (keys record) ++ LF ++ "      ") ++ " RETURNING *")
                    (values record))
            "[PostgresClient] Erro ao atualizar dados:")
  /\ (whereConditions b <> [] ->
     text (deleteStmt b)
       = ((LF ++ "        DELETE FROM " ++ table b ++ LF ++ "      ")
          ++ " WHERE " ++ join " AND " (whereConditions b)) ++ " RETURNING *"
     /\ updateStmt b record
        = mkStmt (((LF ++ "        UPDATE " ++ table b ++ LF ++ "        SET "
                    ++ setClause record ++ LF ++ "      ")
                   ++ " WHERE " ++ join " AND " (whereConditions b))
                  ++ " RETURNING *")
                 (values record ++ whereParams b)%list
     /\ delete drv (b, w)
        = sendsAndWraps drv b w
            (mkStmt (((LF ++ "        DELETE FROM " ++ table b ++ LF ++ "      ")
                      ++ " WHERE " ++ join " AND " (whereConditions b))
                     ++ " RETURNING *")
                    (whereParams b))
            "[PostgresClient] Erro ao excluir dados:"
     /\ update drv record (b, w)
        = sendsAndWraps drv b w
            (mkStmt (((LF ++ "        UPDATE " ++ table b ++ LF ++ "        SET "
                       ++ setList (keys record) ++ LF ++ "      ")
                      ++ " WHERE " ++ join " AND " (whereConditions b))
                     ++ " RETURNING *")
                    (values record ++ whereParams b)%list)
            "[PostgresClient] Erro ao atualizar dados:")
  /\ (forall t cs,
        (whereConditions (chainCalls cs (from t)) = [] <-> existsb isFilter cs = false)
        /\ (existsb isFilter cs = false ->
              deleteStmt (chainCalls cs (from t))
              = mkStmt ((LF ++ "        DELETE FROM " ++ t ++ LF ++ "      ")
                        ++ " RETURNING *") []
              /\ delete drv (chainCalls cs (from t), w)
                 = sendsAndWraps drv (chainCalls cs (from t)) w
                     (mkStmt ((LF ++ "        DELETE FROM " ++ t ++ LF ++ "      ")
                              ++ " RETURNING *") [])
                     "[PostgresClient] Erro ao excluir dados:")).
Proof.
  assert (Hset : setClause record = setList (keys record)).
  { unfold setClause, setList, mapi, numbered. f_equal. apply mapi_from_numbered. }
  split; [|split].
  - intros Hnil. rewrite delete_sends, update_sends, <- Hset.
    unfold deleteStmt, updateStmt, addWhere. rewrite Hnil.
    repeat split.
  - intros Hne. rewrite delete_sends, update_sends, <- Hset.
    unfold deleteStmt, updateStmt, addWhere.
    destruct (whereConditions b) as [|c cs]; [contradiction|].
    repeat split.
  - intros t cs.
    destruct (chainCalls_conditions cs t) as (Hn & Hp).
    assert (Hfilter : existsb isFilter cs = false <-> filter isFilter cs = []).
    { clear. induction cs as [|c cs IH]; simpl; [tauto|].
      destruct (isFilter c); simpl; [split; discriminate | exact IH]. }
    assert (Hiff : whereConditions (chainCalls cs (from t)) = []
                   <-> existsb isFilter cs = false).
    { rewrite Hfilter. split; intros H.
      - apply length_zero_iff_nil. rewrite <- Hn, H. reflexivity.
      - apply length_zero_iff_nil. rewrite Hn, H. reflexivity. }
    split; [exact Hiff|].
    intros Hno.
    assert (Hstmt : deleteStmt (chainCalls cs (from t))
                    = mkStmt ((LF ++ "        DELETE FROM " ++ t ++ LF ++ "      ")
                              ++ " RETURNING *") []).
    { unfold deleteStmt, addWhere.
      rewrite (proj2 Hiff Hno), (Hp (proj1 Hfilter Hno)).
      assert (Ht : table (chainCalls cs (from t)) = t).
      { clear. induction cs as [|c cs IH] using rev_ind; [reflexivity|].
        rewrite chainCalls_snoc. destruct c as [f|p| | | |]; try exact IH.
        - destruct f; exact IH.
        - destruct p; exact IH. }
      rewrite Ht. reflexivity. }
    split; [exact Hstmt|]. rewrite delete_sends, Hstmt. reflexivity.
Qed.

Lemma delete_update_where_only_with_filters_witness :
  whereConditions (limit 3 (from "tables")) = []
  /\ text (deleteStmt (limit 3 (from "tables")))
     = LF ++ "        DELETE FROM tables" ++ LF ++ "       RETURNING *"
  /\ delete healthy (limit 3 (from "tables"), mkWorld 1 [])
     = (Returned (setData [] (newBuilder "tables")),
        (limit 3 (from "tables"),
         mkWorld 1 [Sent ViaPool
                      (mkStmt (LF ++ "        DELETE FROM tables" ++ LF
                               ++ "       RETURNING *") [])]))
  /\ whereConditions (eq "id" (JNum 4) (from "tables")) <> []
  /\ text (deleteStmt (eq "id" (JNum 4) (from "tables")))
     = LF ++ "        DELETE FROM tables" ++ LF ++ "       WHERE id = $1 RETURNING *".
Proof.
  destruct (delete_update_where_only_with_filters healthy
              (limit 3 (from "tables")) [] (mkWorld 1 [])) as (Hempty & _ & _).
  destruct (Hempty eq_refl) as (Htext & _ & Hdelete & _).
  split; [reflexivity|]. split; [exact Htext|]. split; [exact Hdelete|].
  assert (Hne : whereConditions (eq "id" (JNum 4) (from "tables")) <> [])
    by (simpl; discriminate).
  split; [exact Hne|].
  destruct (delete_update_where_only_with_filters healthy
              (eq "id" (JNum 4) (from "tables")) [] (mkWorld 1 [])) as (_ & Hfilled & _).
  exact (proj1 (Hfilled Hne)).
Defined.

(** C1. After [eq(col, x)] on a fresh builder, [update(record)] binds the
    record's values followed by [x], but the predicate keeps the number it
    was given when the filter was called: [$1], whatever the number of [SET]
    columns.  For [update({a: 1, b: 2})] after [eq('id', x)] the parameters
    are [[1, 2, x]] and the text reads [SET a = $1, b = $2 ... WHERE id = $1],
    not [WHERE id = $3]. *)
Theorem update_where_placeholder_restarts_at_1 (drv : Driver) (t col : string)
    (x : JsValue) (record : Row) (w : World) :
  updateStmt (eq col x (from t)) record
  = mkStmt (((LF ++ "        UPDATE " ++ t ++ LF ++ "        SET "
              ++ setClause record ++ LF ++ "      ")
             ++ " WHERE " ++ col ++ " = $1") ++ " RETURNING *")
           (values record ++ [x])%list
  /\ updateStmt (eq "id" x (from "t")) [("a", JNum 1); ("b", JNum 2)]
     = mkStmt (LF ++ "        UPDATE t" ++ LF ++ "        SET a = $1, b = $2"
               ++ LF ++ "       WHERE id = $1 RETURNING *")
              [JNum 1; JNum 2; x]
  /\ text (updateStmt (eq "id" x (from "t")) [("a", JNum 1); ("b", JNum 2)])
     <> LF ++ "        UPDATE t" ++ LF ++ "        SET a = $1, b = $2"
        ++ LF ++ "       WHERE id = $3 RETURNING *"
  /\ exists b' evs,
       update drv record (eq col x (from t), w)
       = (Returned b',
          (eq col x (from t),
           mkWorld (available w)
             (trace w ++ Sent ViaPool (updateStmt (eq col x (from t)) record)
                      :: evs)%list)).
Proof.
  split; [reflexivity|]. split; [reflexivity|]. split; [discriminate|].
  rewrite update_run. unfold logEvent, push.
  destruct (respond drv (trace w) _); simpl.
  - eexists; exists []; reflexivity.
  - eexists; eexists. rewrite <- app_assoc. reflexivity.
Qed.

(** The part of C1 the code does satisfy: the parameters of [update] are the
    record's values followed by the filters' values in call order. *)
Lemma update_params_concatenated (t : string) (cs : list FilterCall) (record : Row) :
  params (updateStmt (chain cs (from t)) record)
  = (values record ++ flat_map boundValues cs)%list.
Proof.
  unfold updateStmt.
  pose proof (chain_conditions_length cs (from t)) as Hlen.
  pose proof (chain_params cs (from t)) as Hps.
  destruct (whereConditions (chain cs (from t))) as [|p ps]; simpl in *.
  - destruct cs; [|discriminate]. simpl. now rewrite app_nil_r.
  - unfold pushAll. now rewrite Hps.
Qed.

(** ** [in] with no values *)

(** C4. [in(col, [])] followed by [execute()] composes and sends
    [SELECT * FROM <table> WHERE <col> IN ()], with no parameter; there is
    no guard, and when the database rejects the text the call returns that
    rejection as its [error]. *)
Theorem empty_in_sends_empty_list (drv : Driver) (t col : string) (w : World) :
  executeStmt (in_ col [] (from t))
  = mkStmt (("SELECT * FROM " ++ t) ++ " WHERE " ++ col ++ " IN ()") []
  /\ (exists env evs,
        execute drv (in_ col [] (from t), w)
        = (Returned env,
           (in_ col [] (from t),
            mkWorld (available w)
              (trace w ++ Sent ViaPool (executeStmt (in_ col [] (from t)))
                       :: evs)%list)))
  /\ let syntaxError := DriverError "42601" "syntax error at or near )" in
     fst (execute (rejecting "SELECT * FROM order_items WHERE order_id IN ()" syntaxError)
                  (in_ "order_id" [] (from "order_items"), mkWorld 1 []))
     = Returned (mkEnvelope None (Some syntaxError)).
Proof.
  split; [reflexivity|]. split; [|reflexivity].
  rewrite execute_run. unfold logEvent, push.
  destruct (respond drv (trace w) _); simpl.
  - eexists; exists []; reflexivity.
  - eexists; eexists. rewrite <- app_assoc. reflexivity.
Qed.

(** ** Transactions *)

Lemma released_app (tr tr' : list Event) :
  released (tr ++ tr')%list = released tr + released tr'.
Proof.
  induction tr as [|e tr IH]; simpl; [reflexivity|].
  destruct e; simpl; rewrite IH; reflexivity.
Qed.

Lemma checkedOut_app (tr tr' : list Event) :
  checkedOut (tr ++ tr')%list = checkedOut tr + checkedOut tr'.
Proof.
  induction tr as [|e tr IH]; simpl; [reflexivity|].
  destruct e; simpl; rewrite IH; reflexivity.
Qed.

Lemma released_push (tr : list Event) (e : Event) :
  released (push tr e) = released tr + released [e].
Proof. apply released_app. Qed.

Lemma checkedOut_push (tr : list Event) (e : Event) :
  checkedOut (push tr e) = checkedOut tr + checkedOut [e].
Proof. apply checkedOut_app. Qed.

(** A unit of work settles, only adds statements on its connection to the
    trace, and leaves the pool alone. *)
Lemma runWork_frame (drv : Driver) {T : Type} (u : Work T) (w : World) :
  fst (runWork drv u w) <> Pending
  /\ available (snd (runWork drv u w)) = available w
  /\ released (trace (snd (runWork drv u w))) = released (trace w)
  /\ checkedOut (trace (snd (runWork drv u w))) = checkedOut (trace w)
  /\ exists evs, trace (snd (runWork drv u w)) = (trace w ++ evs)%list.
Proof.
  revert w. induction u as [r|e|text ps k IH]; intros w; simpl.
  - repeat split; try discriminate. exists []. now rewrite app_nil_r.
  - repeat split; try discriminate. exists []. now rewrite app_nil_r.
  - destruct (IH (respond drv (trace w) (mkStmt text ps))
                 (logEvent (Sent ViaClient (mkStmt text ps)) w))
      as (Hs & Ha & Hr & Hc & evs & Ht).
    repeat split; try assumption.
    + rewrite Hr. simpl. rewrite released_push. simpl. lia.
    + rewrite Hc. simpl. rewrite checkedOut_push. simpl. lia.
    + rewrite Ht. simpl. unfold push. rewrite <- app_assoc. eauto.
Qed.

(** [transaction], path by path. *)
Lemma transaction_run (drv : Driver) {T : Type} (callback : PoolClient -> Work T)
    (w : World) :
  transaction drv callback w
  = match connectFault drv (trace w) with
    | Some e => (Raised e, w)
    | None =>
        match available w with
        | O => (Pending, w)
        | S _ =>
            let w1 := afterCheckout w in
            let w2 := afterClientQuery "BEGIN" w1 in
            match respond drv (trace w1) (mkStmt "BEGIN" []) with
            | Rejects e => catchThenFinally drv e w2
            | Rows _ =>
                match runWork drv (callback Connection) w2 with
                | (Returned result, w3) =>
                    match respond drv (trace w3) (mkStmt "COMMIT" []) with
                    | Rows _ =>
                        (Returned (mkEnvelope (Some result) None),
                         afterRelease (afterClientQuery "COMMIT" w3))
                    | Rejects e =>
                        catchThenFinally drv e (afterClientQuery "COMMIT" w3)
                    end
                | (Raised e, w3) => catchThenFinally drv e w3
                | (Pending, w3) => (Pending, w3)
                end
            end
        end
    end.
Proof.
  unfold transaction, bind at 1, pool_connect.
  destruct (connectFault drv (trace w)) as [e|]; [reflexivity|].
  destruct (available w) as [|n] eqn:Hav; [reflexivity|].
  unfold afterCheckout. rewrite Hav. simpl Nat.pred.
  unfold tryFinally, tryCatch, bind, client_query, send, client_release,
    console_error, ret, catchThenFinally, afterRelease, afterClientQuery.
  cbn [trace available logEvent].
  destruct (respond drv (push (trace w) Checkout) (mkStmt "BEGIN" [])) as [rows|e].
  - destruct (runWork drv (callback Connection) _) as [[result|e|] w3].
    + destruct (respond drv (trace w3) (mkStmt "COMMIT" [])) as [rows'|e].
      * reflexivity.
      * cbn [trace available logEvent].
        destruct (respond drv _ (mkStmt "ROLLBACK" [])); reflexivity.
    + destruct (respond drv (trace w3) (mkStmt "ROLLBACK" [])); reflexivity.
    + reflexivity.
  - cbn [trace available logEvent].
    destruct (respond drv _ (mkStmt "ROLLBACK" [])); reflexivity.
Qed.

Lemma catchThenFinally_frame (drv : Driver) {T : Type} (e : Exn) (w : World) :
  let w' := snd (@catchThenFinally drv T e w) in
  available w' = S (available w)
  /\ released (trace w') = released (trace w) + 1
  /\ checkedOut (trace w') = checkedOut (trace w)
  /\ exists tr, trace w' = push tr Released.
Proof.
  unfold catchThenFinally, afterRelease, afterClientQuery, logEvent.
  destruct (respond drv (trace w) (mkStmt "ROLLBACK" [])); cbn [snd trace available];
    rewrite ?released_push, ?checkedOut_push; simpl;
    (repeat split; [lia | lia | eauto]).
Qed.

(** C7. Whatever the unit of work does and whichever of [BEGIN], [COMMIT]
    and [ROLLBACK] the database rejects, a [transaction] call that obtained a
    connection releases it exactly once, as its last step, and the number of
    available connections is what it was before the call; a call that
    obtained none releases none. *)
Theorem transaction_releases_exactly_once (drv : Driver) {T : Type}
    (callback : PoolClient -> Work T) (w : World) :
  let w' := snd (transaction drv callback w) in
  available w' = available w
  /\ released (trace w') = released (trace w) + (if checksOut drv w then 1 else 0)
  /\ checkedOut (trace w') = checkedOut (trace w) + (if checksOut drv w then 1 else 0)
  /\ (if checksOut drv w then exists tr, trace w' = push tr Released else w' = w).
Proof.
  rewrite transaction_run. unfold checksOut.
  destruct (connectFault drv (trace w)) as [e|];
    [cbn [snd]; repeat split; lia|].
  destruct (available w) as [|n] eqn:Hav;
    [cbn [snd]; repeat split; lia|].
  cbv zeta.
  set (w1 := afterCheckout w).
  set (w2 := afterClientQuery "BEGIN" w1).
  assert (H2 : available w2 = n /\ released (trace w2) = released (trace w)
               /\ checkedOut (trace w2) = checkedOut (trace w) + 1).
  { unfold w2, w1, afterClientQuery, afterCheckout, logEvent. cbn [trace available].
    rewrite Hav, !released_push, !checkedOut_push. simpl. repeat split; lia. }
  destruct H2 as (Ha2 & Hr2 & Hc2).
  destruct (respond drv (trace w1) (mkStmt "BEGIN" [])) as [rows|e].
  - destruct (runWork_frame drv (callback Connection) w2) as (Hs & Ha & Hr & Hc & _).
    destruct (runWork drv (callback Connection) w2) as [[result|e|] w3];
      cbn [fst snd] in Hs, Ha, Hr, Hc.
    + destruct (respond drv (trace w3) (mkStmt "COMMIT" [])) as [rows'|e].
      * unfold afterRelease, afterClientQuery, logEvent. cbn [snd trace available].
        rewrite !released_push, !checkedOut_push. simpl.
        repeat split; try lia. eauto.
      * destruct (@catchThenFinally_frame drv T e (afterClientQuery "COMMIT" w3))
          as (Ha' & Hr' & Hc' & Hlast).
        rewrite Ha', Hr', Hc'. unfold afterClientQuery, logEvent. cbn [trace available].
        rewrite !released_push, !checkedOut_push. simpl.
        repeat split; try lia. exact Hlast.
    + destruct (@catchThenFinally_frame drv T e w3) as (Ha' & Hr' & Hc' & Hlast).
      rewrite Ha', Hr', Hc'. repeat split; try lia. exact Hlast.
    + contradiction.
  - destruct (@catchThenFinally_frame drv T e w2) as (Ha' & Hr' & Hc' & Hlast).
    rewrite Ha', Hr', Hc'. repeat split; try lia. exact Hlast.
Qed.

(** C6, as amended.  A [transaction] call that obtains a connection sends
    [BEGIN] on it first and runs the unit of work only once [BEGIN] was
    accepted: when [BEGIN] is rejected the call does the same for every unit
    of work, and [ROLLBACK] is the statement that follows [BEGIN].  When the
    unit of work returns [result], [COMMIT] is sent, and if the database
    accepts it the call returns [{data: result, error: null}].  When the unit
    of work raises [e], [ROLLBACK] is sent, and if the database accepts it
    the call returns [{data: null, error: e}]. *)
Theorem transaction_commits_or_rolls_back (drv : Driver) {T : Type}
    (callback : PoolClient -> Work T) (w : World) :
  checksOut drv w = true ->
  let w1 := afterCheckout w in
  let w2 := afterClientQuery "BEGIN" w1 in
  (exists evs, trace (snd (transaction drv callback w)) = (trace w2 ++ evs)%list)
  /\ (accepts drv w1 "BEGIN" = true ->
      match runWork drv (callback Connection) w2 with
      | (Returned result, w3) =>
          (exists evs, trace (snd (transaction drv callback w))
                       = (trace (afterClientQuery "COMMIT" w3) ++ evs)%list)
          /\ (accepts drv w3 "COMMIT" = true ->
              transaction drv callback w
              = (Returned (mkEnvelope (Some result) None),
                 afterRelease (afterClientQuery "COMMIT" w3)))
      | (Raised e, w3) =>
          (exists evs, trace (snd (transaction drv callback w))
                       = (trace (afterClientQuery "ROLLBACK" w3) ++ evs)%list)
          /\ (accepts drv w3 "ROLLBACK" = true ->
              transaction drv callback w
              = (Returned (mkEnvelope None (Some e)),
                 afterRelease
                   (logEvent (ConsoleError "[PostgresClient] Erro na transação:" e)
                             (afterClientQuery "ROLLBACK" w3))))
      | (Pending, _) => False
      end)
  /\ (accepts drv w1 "BEGIN" = false ->
      (forall other : PoolClient -> Work T,
         transaction drv callback w = transaction drv other w)
      /\ (exists evs, trace (snd (transaction drv callback w))
                      = (trace (afterClientQuery "ROLLBACK" w2) ++ evs)%list)
      /\ (accepts drv w2 "ROLLBACK" = true ->
          exists e,
            respond drv (trace w1) (mkStmt "BEGIN" []) = Rejects e
            /\ transaction drv callback w
               = (Returned (mkEnvelope None (Some e)),
                  afterRelease
                    (logEvent (ConsoleError "[PostgresClient] Erro na transação:" e)
                              (afterClientQuery "ROLLBACK" w2))))).
Proof.
  intros Hco w1 w2. rewrite transaction_run.
  unfold checksOut in Hco.
  destruct (connectFault drv (trace w)) as [e|] eqn:Hcf; [discriminate|].
  destruct (available w) as [|n] eqn:Hav; [discriminate|].
  cbv zeta. fold w1. fold w2. unfold accepts.
  assert (Hcatch : forall e w0, exists evs,
            trace (snd (@catchThenFinally drv T e w0))
            = (trace (afterClientQuery "ROLLBACK" w0) ++ evs)%list).
  { intros e w0. unfold catchThenFinally, afterRelease, logEvent, push.
    destruct (respond drv (trace w0) (mkStmt "ROLLBACK" [])); cbn [snd trace].
    - rewrite <- app_assoc. eauto.
    - eauto. }
  assert (Hcatch' : forall e w0, exists evs,
            trace (snd (@catchThenFinally drv T e w0)) = (trace w0 ++ evs)%list).
  { intros e w0. destruct (Hcatch e w0) as (evs & ->).
    unfold afterClientQuery, logEvent, push. cbn [trace].
    rewrite <- app_assoc. eauto. }
  destruct (runWork_frame drv (callback Connection) w2) as (Hs & _ & _ & _ & evs2 & Ht2).
  destruct (respond drv (trace w1) (mkStmt "BEGIN" [])) as [rows|e] eqn:Hbegin.
  - split; [|split; [|discriminate]].
    all: destruct (runWork drv (callback Connection) w2) as [[result|e|] w3];
      cbn [fst snd] in Hs, Ht2; try contradiction.
    + destruct (respond drv (trace w3) (mkStmt "COMMIT" [])).
      * unfold afterRelease, afterClientQuery, logEvent, push. cbn [snd trace].
        rewrite Ht2, <- !app_assoc. eauto.
      * destruct (Hcatch' e (afterClientQuery "COMMIT" w3)) as (evs & ->).
        unfold afterClientQuery, logEvent, push. cbn [trace].
        rewrite Ht2, <- !app_assoc. eauto.
    + destruct (Hcatch' e w3) as (evs & ->). rewrite Ht2, <- app_assoc. eauto.
    + intros _. split.
      * destruct (respond drv (trace w3) (mkStmt "COMMIT" [])).
        -- unfold afterRelease, push. cbn [snd trace]. eauto.
        -- apply Hcatch'.
      * destruct (respond drv (trace w3) (mkStmt "COMMIT" []));
          [reflexivity | discriminate].
    + intros _. split; [apply Hcatch|].
      unfold catchThenFinally.
      destruct (respond drv (trace w3) (mkStmt "ROLLBACK" []));
        [reflexivity | discriminate].
  - split; [apply Hcatch'|]. split; [discriminate|].
    intros _. split; [|split].
    + intros other. rewrite (transaction_run drv other), Hcf, Hav. cbv zeta.
      fold w1. rewrite Hbegin. reflexivity.
    + apply Hcatch.
    + intros Hrb. exists e. split; [reflexivity|].
      unfold catchThenFinally.
      destruct (respond drv (trace w2) (mkStmt "ROLLBACK" []));
        [reflexivity | discriminate].
Qed.

Lemma transaction_commits_or_rolls_back_witness :
  checksOut healthy (mkWorld 2 []) = true
  /\ transaction healthy insertOneCategory (mkWorld 2 [])
     = (Returned (mkEnvelope (Some 7%Z) None),
        mkWorld 2 [Checkout;
                   Sent ViaClient (mkStmt "BEGIN" []);
                   Sent ViaClient
                     (mkStmt "INSERT INTO categories (id, name) VALUES ($1, $2)"
                             [JStr "c1"; JStr "Drinks"]);
                   Sent ViaClient (mkStmt "COMMIT" []);
                   Released])
  /\ transaction healthy (failingWork (UserError "stop")) (mkWorld 2 [])
     = (Returned (mkEnvelope None (Some (UserError "stop"))),
        mkWorld 2 [Checkout;
                   Sent ViaClient (mkStmt "BEGIN" []);
                   Sent ViaClient (mkStmt "ROLLBACK" []);
                   ConsoleError "[PostgresClient] Erro na transação:" (UserError "stop");
                   Released]).
Proof.
  split; [reflexivity|]. split.
  - destruct (transaction_commits_or_rolls_back healthy insertOneCategory
                (mkWorld 2 []) eq_refl) as (_ & H & _).
    destruct (H eq_refl) as (_ & Hc). exact (Hc eq_refl).
  - destruct (transaction_commits_or_rolls_back healthy (failingWork (UserError "stop"))
                (mkWorld 2 []) eq_refl) as (_ & H & _).
    destruct (H eq_refl) as (_ & Hr). exact (Hr eq_refl).
Defined.

(** C6, as stated, fails: the unit of work returns 42, the database rejects
    [COMMIT], and the call returns the rejection in [error] with [data]
    null, after sending [ROLLBACK]. *)
Lemma transaction_commit_rejected_counterexample :
  runWork (rejecting "COMMIT" serializationFailure) (returns42 Connection)
          (afterClientQuery "BEGIN" (afterCheckout (mkWorld 1 [])))
  = (Returned 42%Z, afterClientQuery "BEGIN" (afterCheckout (mkWorld 1 [])))
  /\ transaction (rejecting "COMMIT" serializationFailure) returns42 (mkWorld 1 [])
     = (Returned (mkEnvelope None (Some serializationFailure)),
        mkWorld 1 [Checkout;
                   Sent ViaClient (mkStmt "BEGIN" []);
                   Sent ViaClient (mkStmt "COMMIT" []);
                   Sent ViaClient (mkStmt "ROLLBACK" []);
                   ConsoleError "[PostgresClient] Erro na transação:" serializationFailure;
                   Released])
  /\ fst (transaction (rejecting "COMMIT" serializationFailure) returns42 (mkWorld 1 []))
     <> Returned (mkEnvelope (Some 42%Z) None).
Proof.
  split; [reflexivity|]. split; [reflexivity|]. discriminate.
Qed.

(** With any driver and any unit of work: once the unit of work has raised
    and the database rejects [ROLLBACK], the call raises the rejection and
    the trace ends with the [ROLLBACK] and the release. *)
Lemma rollback_rejected_raises (drv : Driver) {T : Type}
    (callback : PoolClient -> Work T) (w w3 : World) (e1 e2 : Exn) :
  checksOut drv w = true ->
  accepts drv (afterCheckout w) "BEGIN" = true ->
  runWork drv (callback Connection) (afterClientQuery "BEGIN" (afterCheckout w))
    = (Raised e1, w3) ->
  respond drv (trace w3) (mkStmt "ROLLBACK" []) = Rejects e2 ->
  transaction drv callback w
  = (Raised e2, afterRelease (afterClientQuery "ROLLBACK" w3)).
Proof.
  intros Hco Hbegin Hwork Hrb. rewrite transaction_run.
  unfold checksOut in Hco. unfold accepts in Hbegin.
  destruct (connectFault drv (trace w)); [discriminate|].
  destruct (available w); [discriminate|].
  cbv zeta.
  destruct (respond drv (trace (afterCheckout w)) (mkStmt "BEGIN" []));
    [|discriminate].
  rewrite Hwork. unfold catchThenFinally. rewrite Hrb. reflexivity.
Qed.

(** C3. When the unit of work raises [e1] and the database then rejects
    [ROLLBACK] with [e2], the [catch] block is left at the [ROLLBACK]: the
    [console.error] after it is not reached, nothing is logged, and the call
    raises [e2] once the connection is released.  [e1] reaches neither the
    caller nor the console. *)
Theorem rollback_rejection_escapes (e1 e2 : Exn) (n : nat) (tr : list Event) :
  transaction (rejecting "ROLLBACK" e2) (failingWork e1) (mkWorld (S n) tr)
  = (Raised e2,
     mkWorld (S n)
       (tr ++ [Checkout;
               Sent ViaClient (mkStmt "BEGIN" []);
               Sent ViaClient (mkStmt "ROLLBACK" []);
               Released])%list).
Proof.
  rewrite transaction_run. cbn.
  unfold catchThenFinally, afterRelease, afterClientQuery, afterCheckout, logEvent, push.
  cbn. rewrite <- !app_assoc. reflexivity.
Qed.

(** C2. [from(table).insert(record).execute()] does not return the envelope
    of the insertion.  As written, [execute] is looked up on the promise that
    the [async] method [insert] returns, and the call raises a [TypeError],
    whether or not the [INSERT] succeeded.  Read with the return type the
    source declares for [insert], [execute] runs on the fresh builder that
    [insert] resolves to and returns the rows of [SELECT * FROM <table>] with
    a null [error], also when the database rejected the [INSERT]. *)
Theorem insert_execute_chain_loses_envelope (e : Exn) (rows : list Row)
    (record : Row) (n : nat) (tr : list Event) :
  insertExecuteChain healthy "categories" record (mkWorld n tr)
  = (Raised (TypeError "execute is not a function"),
     mkWorld n (tr ++ [Sent ViaPool (insertStmt (from "categories") record)])%list)
  /\ insertExecuteChain (acceptingOnly "SELECT * FROM categories" rows e)
       "categories" record (mkWorld n tr)
     = (Raised (TypeError "execute is not a function"),
        mkWorld n
          (tr ++ [Sent ViaPool (insertStmt (from "categories") record);
                  ConsoleError "[PostgresClient] Erro ao inserir dados:" e])%list)
  /\ insertAwaitExecute (acceptingOnly "SELECT * FROM categories" rows e)
       "categories" record (mkWorld n tr)
     = (Returned (mkEnvelope (Some rows) None),
        mkWorld n
          (tr ++ [Sent ViaPool (insertStmt (from "categories") record);
                  ConsoleError "[PostgresClient] Erro ao inserir dados:" e;
                  Sent ViaPool (mkStmt "SELECT * FROM categories" [])])%list).
Proof.
  unfold insertExecuteChain, insertAwaitExecute, callAsync, await, callExecute, bind, throw.
  rewrite !insert_run. cbn.
  unfold logEvent, push. cbn. rewrite <- !app_assoc. repeat split.
Qed.

(** ** The error classifier *)

Lemma knownCodes_classified (o : Row) (code text : string) :
  In (code, text) knownCodes ->
  prop "code" o = JStr code ->
  handlePostgresError (Properties o) = JStr text.
Proof.
  intros Hin Hcode. unfold handlePostgresError. simpl. rewrite Hcode.
  simpl in Hin.
  repeat (destruct Hin as [Heq|Hin]; [injection Heq as <- <-; reflexivity|]).
  contradiction.
Qed.

(** X1. [handlePostgresError] never yields an empty message or another
    falsy value; an object whose [code] is one of the five known codes gets
    the fixed text of that code whatever its [message] says; without a known
    code the result is the [message] when that is truthy; and the private
    copy [handleError] of the test service classifies every value alike. *)
Theorem classifier_total_and_code_first (error : Thrown) :
  truthy (handlePostgresError error) = true
  /\ (forall o code text,
        error = Properties o -> In (code, text) knownCodes ->
        prop "code" o = JStr code ->
        handlePostgresError error = JStr text)
  /\ (forall o,
        error = Properties o ->
        (forall code text, In (code, text) knownCodes -> prop "code" o <> JStr code) ->
        handlePostgresError error
        = if truthy (prop "message" o) then prop "message" o
          else JStr "Erro desconhecido")
  /\ handleError error = handlePostgresError error.
Proof.
  split; [|split; [|split]].
  - unfold handlePostgresError.
    destruct (isFalsy error); [reflexivity|]. cbv zeta.
    assert (Hfb : truthy (if truthy (readProp "message" error)
                          then readProp "message" error
                          else JStr "Erro desconhecido") = true).
    { destruct (truthy (readProp "message" error)) eqn:Hm; [exact Hm | reflexivity]. }
    destruct (readProp "code" error) as [| | | |code]; try exact Hfb.
    repeat match goal with
           | |- context [String.eqb code ?lit] => destruct (String.eqb code lit)
           end; try reflexivity; exact Hfb.
  - intros o code text -> Hin Hcode. exact (knownCodes_classified o code text Hin Hcode).
  - intros o -> Hnone. unfold handlePostgresError. simpl.
    destruct (prop "code" o) as [| | | |code] eqn:Hcode; try reflexivity.
    repeat match goal with
           | |- context [String.eqb code ?lit] =>
               destruct (String.eqb_spec code lit) as [->|_];
                 [exfalso; eapply Hnone; [|reflexivity]; simpl; tauto|]
           end.
    reflexivity.
  - reflexivity.
Qed.

Lemma classifier_total_and_code_first_witness :
  In ("23505", "Registro duplicado") knownCodes
  /\ handlePostgresError
       (thrownOf (DriverError "23505" "duplicate key value violates unique constraint"))
     = JStr "Registro duplicado".
Proof.
  split; [simpl; tauto|].
  destruct (classifier_total_and_code_first
              (thrownOf (DriverError "23505"
                           "duplicate key value violates unique constraint")))
    as (_ & H & _).
  apply (H _ "23505" "Registro duplicado" eq_refl); [simpl; tauto | reflexivity].
Defined.

(** ** Chains in any order *)

Lemma lastColumns_snoc (cs : list ChainCall) (c : ChainCall) (start : list string) :
  lastColumns (cs ++ [c])%list start
  = match c with
    | Select (OneColumn col) => [col]
    | Select (Columns cols) => cols
    | _ => lastColumns cs start
    end.
Proof. unfold lastColumns. rewrite fold_left_app. reflexivity. Qed.

Lemma lastOrder_snoc (cs : list ChainCall) (c : ChainCall)
    (start : list string * Direction) :
  lastOrder (cs ++ [c])%list start
  = match c with
    | OrderBy col d => ([col], d)
    | _ => lastOrder cs start
    end.
Proof. unfold lastOrder. rewrite fold_left_app. reflexivity. Qed.

Lemma lastLimit_snoc (cs : list ChainCall) (c : ChainCall) (start : option Z) :
  lastLimit (cs ++ [c])%list start
  = match c with
    | Limit v => Some v
    | Single => Some 1%Z
    | _ => lastLimit cs start
    end.
Proof. unfold lastLimit. rewrite fold_left_app. reflexivity. Qed.

Lemma lastOffset_snoc (cs : list ChainCall) (c : ChainCall) (start : option Z) :
  lastOffset (cs ++ [c])%list start
  = match c with
    | Offset v => Some v
    | _ => lastOffset cs start
    end.
Proof. unfold lastOffset. rewrite fold_left_app. reflexivity. Qed.

Lemma filtersOf_snoc (cs : list ChainCall) (c : ChainCall) :
  filtersOf (cs ++ [c])%list
  = (filtersOf cs ++ match c with Filter f => [f] | _ => [] end)%list.
Proof. unfold filtersOf. rewrite flat_map_app. simpl. now rewrite app_nil_r. Qed.

(** X2. However [select], [orderBy], [limit], [offset] and [single] are
    interleaved with the filters of a chain, the builder ends up as if the
    filters had been called first, in their order, and then the last
    projection, the last ordering, the last of [limit]/[single] and the last
    offset had been set: the other calls neither renumber nor reorder the
    predicates, and of each setting only the last call counts. *)
Theorem chain_normal_form (cs : list ChainCall) (b : QueryBuilder) :
  chainCalls cs b
  = set_offset (lastOffset cs (offsetValue b))
      (set_limit (lastLimit cs (limitValue b))
         (set_order (fst (lastOrder cs (orderByColumns b, orderDirection b)))
                    (snd (lastOrder cs (orderByColumns b, orderDirection b)))
            (set_columns (lastColumns cs (columns b))
               (chain (filtersOf cs) b)))).
Proof.
  induction cs as [|c cs IH] using rev_ind.
  - destruct b; reflexivity.
  - rewrite chainCalls_snoc, IH.
    rewrite lastColumns_snoc, lastOrder_snoc, lastLimit_snoc, lastOffset_snoc,
      filtersOf_snoc.
    destruct c as [f|p|col d|v|v|].
    + rewrite chain_snoc. destruct f; reflexivity.
    + rewrite app_nil_r. destruct p; reflexivity.
    + rewrite app_nil_r. reflexivity.
    + rewrite app_nil_r. reflexivity.
    + rewrite app_nil_r. reflexivity.
    + rewrite app_nil_r. reflexivity.
Qed.

(** ** Columns, placeholders and values of [insert] and [update] *)

Lemma mapi_from_nth {A B : Type} (f : A -> nat -> B) (xs : list A) (i0 i : nat) (x : A) :
  nth_error xs i = Some x ->
  nth_error (mapi_from f i0 xs) i = Some (f x (i0 + i)).
Proof.
  revert i0 i. induction xs as [|a xs IH]; intros i0 [|i] Hi; simpl in *;
    try discriminate.
  - injection Hi as ->. now rewrite Nat.add_0_r.
  - rewrite (IH (S i0) i Hi). f_equal. f_equal. lia.
Qed.

Lemma mapi_from_length {A B : Type} (f : A -> nat -> B) (xs : list A) (i0 : nat) :
  List.length (mapi_from f i0 xs) = List.length xs.
Proof. revert i0. induction xs as [|a xs IH]; intros i0; simpl; congruence. Qed.

Lemma nth_error_combine_both {A B : Type} (xs : list A) (ys : list B) (i : nat)
    (x : A) (y : B) :
  nth_error xs i = Some x ->
  nth_error ys i = Some y ->
  nth_error (combine xs ys) i = Some (x, y).
Proof.
  revert xs ys. induction i as [|i IH]; intros [|a xs] [|c ys] Hx Hy;
    simpl in *; try discriminate.
  - congruence.
  - now apply IH.
Qed.



(** X4. The statement [update(record)] hands to the pool reads
    [UPDATE <table> SET c1 = $1, ..., cn = $n], then the [WHERE] clause if the
    builder holds predicates, then [RETURNING *]: the [i]-th column of the
    record (from 0), in key order, is written [column = $i+1], and the [i]-th
    bound parameter is that column's value, whatever predicates and values
    the builder has accumulated: the values of the filters only follow the
    [SET] values. *)
Theorem update_aligns_set_columns (drv : Driver) (b : QueryBuilder)
    (record : Row) (w : World) :
  setClause record
  = join ", " (map (fun p => snd p ++ " = " ++ placeholder (fst p))
                   (numbered (keys record)))
  /\ (exists rest, params (updateStmt b record) = (values record ++ rest)%list)
  /\ (forall i column value,
       nth_error record i = Some (column, value) ->
       nth_error (numbered (keys record)) i = Some (i + 1, column)
       /\ nth_error (params (updateStmt b record)) i = Some value)
  /\ text (updateStmt b record)
     = match whereConditions b with
       | [] =>
           (LF ++ "        UPDATE " ++ table b ++ LF ++ "        SET "
            ++ join ", " (map (fun p => snd p ++ " = " ++ placeholder (fst p))
                              (numbered (keys record)))
            ++ LF ++ "      ") ++ " RETURNING *"
       | _ :: _ =>
           ((LF ++ "        UPDATE " ++ table b ++ LF ++ "        SET "
             ++ join ", " (map (fun p => snd p ++ " = " ++ placeholder (fst p))
                               (numbered (keys record)))
             ++ LF ++ "      ")
            ++ " WHERE " ++ join " AND " (whereConditions b)) ++ " RETURNING *"
       end
  /\ params (updateStmt b record)
     = match whereConditions b with
       | [] => values record
       | _ :: _ => (values record ++ whereParams b)%list
       end
  /\ update drv record (b, w)
     = sendsAndWraps drv b w
         (mkStmt (text (updateStmt b record)) (params (updateStmt b record)))
         "[PostgresClient] Erro ao atualizar dados:".
Proof.
  assert (Hps : exists rest, params (updateStmt b record) = (values record ++ rest)%list).
  { unfold updateStmt. destruct (whereConditions b); simpl.
    - exists []. now rewrite app_nil_r.
    - exists (whereParams b). reflexivity. }
  assert (Hset : setClause record
                 = join ", " (map (fun p => snd p ++ " = " ++ placeholder (fst p))
                                  (numbered (keys record)))).
  { unfold setClause, mapi, numbered. f_equal. apply mapi_from_numbered. }
  split; [exact Hset|]. split; [exact Hps|]. split; [|split; [|split]].
  - intros i column value Hi.
    assert (Hlt : i < List.length record) by (apply nth_error_Some; congruence).
    split.
    + unfold numbered, keys.
      assert (Hk : nth_error (map fst record) i = Some column)
        by (rewrite nth_error_map, Hi; reflexivity).
      assert (Hs : nth_error (seq 1 (List.length (map fst record))) i = Some (i + 1)).
      { rewrite nth_error_seq, length_map.
        destruct (Nat.ltb_spec i (List.length record)); [|lia]. f_equal. lia. }
      exact (nth_error_combine_both _ _ i _ _ Hs Hk).
    + destruct Hps as (rest & ->).
      rewrite nth_error_app1 by (unfold values; rewrite length_map; exact Hlt).
      unfold values. rewrite nth_error_map, Hi. reflexivity.
  - rewrite <- Hset. unfold updateStmt. destruct (whereConditions b); reflexivity.
  - unfold updateStmt. destruct (whereConditions b); reflexivity.
  - rewrite update_sends. destruct (updateStmt b record); reflexivity.
Qed.

Lemma update_aligns_set_columns_witness :
  nth_error [("a", JNum 1); ("b", JNum 2)] 1 = Some ("b", JNum 2)
  /\ setClause [("a", JNum 1); ("b", JNum 2)] = "a = $1, b = $2"
  /\ nth_error (params (updateStmt (eq "id" (JStr "X") (from "t"))
                          [("a", JNum 1); ("b", JNum 2)])) 1
     = Some (JNum 2).
Proof.
  destruct (update_aligns_set_columns healthy (eq "id" (JStr "X") (from "t"))
              [("a", JNum 1); ("b", JNum 2)] (mkWorld 1 [])) as (Hs & _ & H & _).
  destruct (H 1 "b" (JNum 2) eq_refl) as (_ & Hv).
  split; [reflexivity|]. split; [exact Hs | exact Hv].
Defined.

(** ** One statement per terminal operation *)

Lemma sentOnce_ok (w : World) (s : Stmt) :
  sentOnce w (logEvent (Sent ViaPool s) w) s None.
Proof. split; reflexivity. Qed.

Lemma sentOnce_logged (w : World) (s : Stmt) (label : string) (e : Exn) :
  sentOnce w (logEvent (ConsoleError label e) (logEvent (Sent ViaPool s) w)) s
           (Some (label, e)).
Proof.
  split; [reflexivity|]. simpl. unfold push. now rewrite <- app_assoc.
Qed.



(** X6. [PostgresClient.query(text, params)] hands exactly that text with
    exactly those parameters to the pool, once; it never raises; it returns
    the rows with a null error when the database accepts the statement, and
    null data with the error, logged once, when it rejects it. *)
Theorem query_sends_once_and_never_raises (drv : Driver) (text : string)
    (ps : list JsValue) (w : World) :
  exists env w', query drv text ps w = (Returned env, w')
    /\ ((exists rows, env = mkEnvelope (Some rows) None
           /\ respond drv (trace w) (mkStmt text ps) = Rows rows
           /\ sentOnce w w' (mkStmt text ps) None)
        \/ (exists e, env = mkEnvelope None (Some e)
           /\ respond drv (trace w) (mkStmt text ps) = Rejects e
           /\ sentOnce w w' (mkStmt text ps)
                (Some ("[PostgresClient] Erro ao executar query:", e)))).
Proof.
  unfold query, tryCatch, bind, pool_query, send, console_error, ret.
  destruct (respond drv (trace w) (mkStmt text ps)) as [rows|e].
  - eexists; eexists; split; [reflexivity|]. left. eexists.
    split; [reflexivity|]. split; [reflexivity|]. apply sentOnce_ok.
  - eexists; eexists; split; [reflexivity|]. right. eexists.
    split; [reflexivity|]. split; [reflexivity|]. apply sentOnce_logged.
Qed.

(** ** How a transaction can end *)

(** Settle a goal about a run that went through the [catch] block. *)
Ltac through_catch Hcatch :=
  match goal with
  | |- context [@catchThenFinally ?d ?T ?e ?w0] =>
      let env := fresh "env" in
      let e' := fresh "e" in
      let w' := fresh "w" in
      specialize (Hcatch e w0);
      destruct (@catchThenFinally d T e w0) as [[env|e'|] w'];
      [ split; [reflexivity|]; right; exact Hcatch
      | right; split; [reflexivity | exact Hcatch]
      | contradiction ]
  end.

(** X7. For a unit of work that only issues statements on its connection
    and settles, which is what [Work] can express, a [transaction] call ends
    in one of these ways only.  It stays pending when no connection is
    available.  It raises when [pool.connect()] rejects (nothing was checked
    out), or when the database rejected the [ROLLBACK], which is then the
    last statement before the release.  It returns [{data: result, error:
    null}] only when the unit of work returned [result] and [COMMIT], sent
    right after it, was accepted and is the last statement; otherwise it
    returns null data with an error after an accepted [ROLLBACK] and one
    console entry for that error. *)
Theorem transaction_outcomes (drv : Driver) {T : Type}
    (callback : PoolClient -> Work T) (w : World) :
  match transaction drv callback w with
  | (Pending, w') =>
      connectFault drv (trace w) = None /\ available w = 0 /\ w' = w
  | (Raised e, w') =>
      (connectFault drv (trace w) = Some e /\ w' = w)
      \/ (checksOut drv w = true
          /\ exists tr,
               trace w' = (tr ++ [Sent ViaClient (mkStmt "ROLLBACK" []); Released])%list
               /\ respond drv tr (mkStmt "ROLLBACK" []) = Rejects e)
  | (Returned env, w') =>
      checksOut drv w = true
      /\ ((exists result w3,
             runWork drv (callback Connection)
                     (afterClientQuery "BEGIN" (afterCheckout w))
             = (Returned result, w3)
             /\ env = mkEnvelope (Some result) None
             /\ trace w'
                = (trace w3 ++ [Sent ViaClient (mkStmt "COMMIT" []); Released])%list
             /\ (exists rows, respond drv (trace w3) (mkStmt "COMMIT" []) = Rows rows))
          \/ (exists e tr,
             env = mkEnvelope None (Some e)
             /\ trace w'
                = (tr ++ [Sent ViaClient (mkStmt "ROLLBACK" []);
                          ConsoleError "[PostgresClient] Erro na transação:" e;
                          Released])%list
             /\ (exists rows, respond drv tr (mkStmt "ROLLBACK" []) = Rows rows)))
  end.
Proof.
  rewrite transaction_run. unfold checksOut.
  destruct (connectFault drv (trace w)) as [e0|] eqn:Hcf; [left; auto|].
  destruct (available w) as [|n] eqn:Hav; [auto|].
  cbv zeta.
  assert (Hcatch : forall e w0,
            match @catchThenFinally drv T e w0 with
            | (Pending, _) => False
            | (Raised e', w') =>
                exists tr,
                  trace w' = (tr ++ [Sent ViaClient (mkStmt "ROLLBACK" []); Released])%list
                  /\ respond drv tr (mkStmt "ROLLBACK" []) = Rejects e'
            | (Returned env, w') =>
                exists e' tr,
                  env = mkEnvelope None (Some e')
                  /\ trace w'
                     = (tr ++ [Sent ViaClient (mkStmt "ROLLBACK" []);
                               ConsoleError "[PostgresClient] Erro na transação:" e';
                               Released])%list
                  /\ (exists rows, respond drv tr (mkStmt "ROLLBACK" []) = Rows rows)
            end).
  { intros e w0. unfold catchThenFinally.
    destruct (respond drv (trace w0) (mkStmt "ROLLBACK" [])) as [rows|e'] eqn:Hrb.
    - exists e, (trace w0). split; [reflexivity|]. split.
      + simpl. unfold push. now rewrite <- !app_assoc.
      + exists rows. exact Hrb.
    - exists (trace w0). split; [|exact Hrb].
      simpl. unfold push. now rewrite <- !app_assoc. }
  destruct (respond drv (trace (afterCheckout w)) (mkStmt "BEGIN" [])) as [rows|e];
    [|through_catch Hcatch].
  destruct (runWork_frame drv (callback Connection)
              (afterClientQuery "BEGIN" (afterCheckout w))) as (Hs & _).
  destruct (runWork drv (callback Connection) _) as [[result|e|] w3];
    [|through_catch Hcatch|contradiction].
  destruct (respond drv (trace w3) (mkStmt "COMMIT" [])) as [rows'|e] eqn:Hcommit;
    [|through_catch Hcatch].
  split; [reflexivity|]. left. exists result, w3.
  split; [reflexivity|]. split; [reflexivity|]. split.
  - simpl. unfold push. now rewrite <- app_assoc.
  - exists rows'. exact Hcommit.
Qed.

(** X8. When the database rejects [BEGIN], the unit of work is not run: the
    call behaves the same for every unit of work, and what follows [BEGIN]
    on the connection is [ROLLBACK] and the release.  If the [ROLLBACK] is
    accepted the call returns the [BEGIN] failure as its error. *)
Theorem begin_rejected_skips_unit_of_work (drv : Driver) {T : Type}
    (callback other : PoolClient -> Work T) (w : World) (e : Exn) :
  checksOut drv w = true ->
  respond drv (trace (afterCheckout w)) (mkStmt "BEGIN" []) = Rejects e ->
  transaction drv callback w = transaction drv other w
  /\ (accepts drv (afterClientQuery "BEGIN" (afterCheckout w)) "ROLLBACK" = true ->
      transaction drv callback w
      = (Returned (mkEnvelope None (Some e)),
         mkWorld (available w)
           (trace w ++ [Checkout;
                        Sent ViaClient (mkStmt "BEGIN" []);
                        Sent ViaClient (mkStmt "ROLLBACK" []);
                        ConsoleError "[PostgresClient] Erro na transação:" e;
                        Released])%list))
  /\ (accepts drv (afterClientQuery "BEGIN" (afterCheckout w)) "ROLLBACK" = false ->
      snd (transaction drv callback w)
      = mkWorld (available w)
          (trace w ++ [Checkout;
                       Sent ViaClient (mkStmt "BEGIN" []);
                       Sent ViaClient (mkStmt "ROLLBACK" []);
                       Released])%list).
Proof.
  intros Hco Hbegin. rewrite !transaction_run. unfold checksOut in Hco.
  destruct (connectFault drv (trace w)); [discriminate|].
  destruct (available w) as [|n] eqn:Hav; [discriminate|].
  cbv zeta. rewrite Hbegin. split; [reflexivity|].
  unfold accepts, catchThenFinally.
  destruct (respond drv (trace (afterClientQuery "BEGIN" (afterCheckout w)))
              (mkStmt "ROLLBACK" [])) as [rows|e2]; split; intros Hacc;
    try discriminate.
  - unfold afterRelease, afterClientQuery, afterCheckout, logEvent, push.
    cbn [trace available]. rewrite Hav. simpl Nat.pred.
    rewrite <- !app_assoc. reflexivity.
  - unfold afterRelease, afterClientQuery, afterCheckout, logEvent, push.
    cbn [snd trace available]. rewrite Hav. simpl Nat.pred.
    rewrite <- !app_assoc. reflexivity.
Qed.

Lemma begin_rejected_skips_unit_of_work_witness :
  checksOut (rejecting "BEGIN" serializationFailure) (mkWorld 1 []) = true
  /\ transaction (rejecting "BEGIN" serializationFailure) insertOneCategory (mkWorld 1 [])
     = (Returned (mkEnvelope None (Some serializationFailure)),
        mkWorld 1 [Checkout;
                   Sent ViaClient (mkStmt "BEGIN" []);
                   Sent ViaClient (mkStmt "ROLLBACK" []);
                   ConsoleError "[PostgresClient] Erro na transação:" serializationFailure;
                   Released]).
Proof.
  split; [reflexivity|].
  destruct (begin_rejected_skips_unit_of_work
              (rejecting "BEGIN" serializationFailure)
              insertOneCategory returns42 (mkWorld 1 []) serializationFailure
              eq_refl eq_refl) as (_ & H & _).
  exact (H eq_refl).
Defined.

(** ** The category functions *)

Lemma statements_app (tr tr' : list Event) :
  statements (tr ++ tr')%list = (statements tr ++ statements tr')%list.
Proof.
  induction tr as [|e tr IH]; simpl; [reflexivity|].
  destruct e; simpl; rewrite IH; reflexivity.
Qed.

Lemma statements_push (tr : list Event) (e : Event) :
  statements (push tr e) = (statements tr ++ statements [e])%list.
Proof. apply statements_app. Qed.

(** Compute the statements of a trace built by appending events. *)
Ltac count_statements :=
  unfold logEvent, push; cbn [trace available];
  rewrite ?statements_app; cbn [statements];
  rewrite ?app_nil_r, <- ?app_assoc; cbn [app]; try reflexivity.

(** X9. [fetchCategories] sends [SELECT * FROM categories ORDER BY name ASC]
    without parameters, once.  When the database answers with rows it
    returns them with a null error and logs nothing; when the database
    rejects the statement it returns null data with that error, after the
    builder and the service have each logged it.  It never raises. *)
Theorem fetchCategories_reads_sorted (drv : Driver) (w : World) :
  match respond drv (trace w) categoriesQuery with
  | Rows rows =>
      fetchCategories drv w
      = (Returned (mkEnvelope (Some rows) None),
         mkWorld (available w) (trace w ++ [Sent ViaPool categoriesQuery])%list)
  | Rejects e =>
      fetchCategories drv w
      = (Returned (mkEnvelope None (Some e)),
         mkWorld (available w)
           (trace w ++ [Sent ViaPool categoriesQuery;
                        ConsoleError "[PostgresClient] Erro ao executar query:" e;
                        ConsoleError "[DataService] Erro ao buscar categorias:" e])%list)
  end.
Proof.
  unfold fetchCategories, tryCatch, bind, runOn.
  rewrite execute_run.
  change (executeStmt (orderBy "name" ASC (select (OneColumn "*") (from "categories"))))
    with categoriesQuery.
  destruct (respond drv (trace w) categoriesQuery) as [rows|e]; cbn.
  - reflexivity.
  - unfold logEvent, push. cbn. rewrite <- !app_assoc. reflexivity.
Qed.

(** X10. [addCategory] sends the [INSERT] of the new category, with the
    id, the name and the timestamp bound in that order, and nothing else;
    but whatever the database answers, also when it accepted the [INSERT],
    the function returns null data and a [TypeError]: [execute] is called on
    the promise that the [async] method [insert] returned. *)
Theorem addCategory_inserts_but_reports_type_error (drv : Driver)
    (categoryId now name : string) (w : World) :
  exists msg w',
    addCategory drv categoryId now name w
    = (Returned (mkEnvelope None (Some (TypeError msg))), w')
    /\ available w' = available w
    /\ statements (trace w')
       = (statements (trace w) ++ [categoryInsert categoryId now name])%list.
Proof.
  unfold addCategory, tryCatch, bind, callAsync, callExecute, throw.
  rewrite insert_run.
  change (insertStmt (from "categories")
            [("id", JStr categoryId); ("name", JStr name); ("created_at", JStr now)])
    with (categoryInsert categoryId now name).
  destruct (respond drv (trace w) (categoryInsert categoryId now name)); cbn;
    eexists; eexists; (split; [reflexivity|]); (split; [reflexivity|]);
    count_statements.
Qed.

(** X11. [updateCategory] sends [UPDATE categories SET name = $1 RETURNING *]
    bound to the new name alone: the statement has no [WHERE] clause and
    the category's id is not among its parameters, because [update] runs
    before [eq] is reached.  Nothing else is sent, and the function always
    returns null data and a [TypeError], [eq] being called on a promise. *)
Theorem updateCategory_updates_unfiltered (drv : Driver) (id name : string)
    (w : World) :
  exists msg w',
    updateCategory drv id name w
    = (Returned (mkEnvelope None (Some (TypeError msg))), w')
    /\ available w' = available w
    /\ statements (trace w') = (statements (trace w) ++ [categoryUpdate name])%list
    /\ params (categoryUpdate name) = [JStr name].
Proof.
  unfold updateCategory, tryCatch, bind, callAsync, callEq, callExecute, throw.
  rewrite update_run.
  change (updateStmt (from "categories") [("name", JStr name)])
    with (categoryUpdate name).
  destruct (respond drv (trace w) (categoryUpdate name)); cbn;
    eexists; eexists; (split; [reflexivity|]); (split; [reflexivity|]);
    (split; [count_statements | reflexivity]).
Qed.


(** ** [fetchOrders] *)

Lemma ownProp_pushTo (k k' : string) (item : Row) (g : Groups) :
  ownProp k (pushTo k' item g)
  = if String.eqb k' k
    then option_map (fun items => push items item) (ownProp k g)
    else ownProp k g.
Proof.
  induction g as [|[k0 items] g IH]; simpl.
  - destruct (String.eqb k' k); reflexivity.
  - destruct (String.eqb_spec k0 k') as [->|Hne]; simpl.
    + destruct (String.eqb_spec k' k) as [->|Hne']; reflexivity.
    + destruct (String.eqb_spec k0 k) as [->|Hne'].
      * destruct (String.eqb_spec k' k) as [->|_]; [contradiction | reflexivity].
      * exact IH.
Qed.

Lemma ownProp_push_new (k k' : string) (items : list Row) (g : Groups) :
  ownProp k (push g (k', items))
  = match ownProp k g with
    | Some found => Some found
    | None => if String.eqb k' k then Some items else None
    end.
Proof.
  unfold push. induction g as [|[k0 items0] g IH]; simpl.
  - reflexivity.
  - destruct (String.eqb k0 k); [reflexivity | exact IH].
Qed.

(** One round of the loop, for a key that [Object.prototype] does not have:
    the item is appended to the array of its key, which is created when
    missing; the other arrays are untouched. *)
Lemma addItem_spec (g : Groups) (item : Row) :
  objectPrototypeHas (orderKey item) = false ->
  exists g', addItem g item = inr g'
    /\ forall k, ownProp k g'
                 = if String.eqb (orderKey item) k
                   then Some (match ownProp k g with
                              | Some items => push items item
                              | None => [item]
                              end)
                   else ownProp k g.
Proof.
  intros Hproto. unfold addItem, lookupGroup. rewrite Hproto.
  destruct (ownProp (orderKey item) g) as [items|] eqn:Hown.
  - eexists; split; [reflexivity|]. intros k. rewrite ownProp_pushTo.
    destruct (String.eqb_spec (orderKey item) k) as [<-|_]; [|reflexivity].
    rewrite Hown. reflexivity.
  - eexists; split; [reflexivity|]. intros k.
    rewrite ownProp_pushTo, ownProp_push_new.
    destruct (String.eqb_spec (orderKey item) k) as [<-|_]; [|].
    + rewrite Hown. reflexivity.
    + destruct (ownProp k g); reflexivity.
Qed.

(** The whole loop: afterwards the array under [k] is what was there before
    followed by the items whose key is [k], in their order. *)
Lemma groupItems_spec (items : list Row) (g : Groups) :
  (forall item, In item items -> objectPrototypeHas (orderKey item) = false) ->
  exists g', groupItems g items = inr g'
    /\ forall k, ownProp k g'
                 = match filter (fun item => String.eqb (orderKey item) k) items with
                   | [] => ownProp k g
                   | found =>
                       Some (match ownProp k g with
                             | Some before => (before ++ found)%list
                             | None => found
                             end)
                   end.
Proof.
  revert g. induction items as [|item rest IH]; intros g Hproto.
  - exists g. split; reflexivity.
  - destruct (addItem_spec g item (Hproto item (or_introl eq_refl))) as (g1 & Hadd & Hg1).
    destruct (IH g1 (fun it Hin => Hproto it (or_intror Hin))) as (g' & Hrun & Hg').
    exists g'. split; [simpl; now rewrite Hadd|].
    intros k. rewrite Hg', Hg1. simpl.
    destruct (String.eqb (orderKey item) k).
    + unfold push.
      destruct (filter (fun item0 => String.eqb (orderKey item0) k) rest) as [|m ms];
        destruct (ownProp k g) as [before|]; try reflexivity.
      now rewrite <- app_assoc.
    + reflexivity.
Qed.

Lemma itemsQuery_statement (ids : list JsValue) :
  executeStmt (in_ "order_id" ids (select (OneColumn "*") (from "order_items")))
  = mkStmt (itemsQueryText (List.length ids)) ids.
Proof.
  unfold executeStmt, addWhere, itemsQueryText.
  destruct (applyFilter_spec (CallIn "order_id" ids)
              (select (OneColumn "*") (from "order_items"))) as (Hc & Hp & _).
  cbn [applyFilter] in Hc, Hp.
  rewrite Hc, Hp. reflexivity.
Qed.

(** X13. [fetchOrders] asks for the orders first.  Only when the database
    answered with at least one order does it send a second statement, which
    lists one placeholder per order, [$1] to [$n] with [n >= 1], bound to the
    orders' ids in the order of the rows: [in] is never reached with an empty
    list.  It sends nothing else and never raises. *)
Theorem fetchOrders_never_sends_empty_in (drv : Driver) (w : World) :
  exists env w',
    fetchOrders drv w = (Returned env, w')
    /\ available w' = available w
    /\ match respond drv (trace w) ordersQuery with
       | Rows (order0 :: more) =>
           statements (trace w')
           = (statements (trace w)
              ++ [ordersQuery;
                  mkStmt (itemsQueryText (S (List.length more)))
                         (map (prop "id") (order0 :: more))])%list
       | _ => statements (trace w') = (statements (trace w) ++ [ordersQuery])%list
       end.
Proof.
  unfold fetchOrders, tryCatch, bind at 1, runOn.
  rewrite execute_run.
  change (executeStmt (orderBy "order_time" DESC (select (OneColumn "*") (from "orders"))))
    with ordersQuery.
  destruct (respond drv (trace w) ordersQuery) as [[|order0 more]|e]; cbn [error data].
  - cbn. eexists; eexists; split; [reflexivity|]. split; [reflexivity|].
    count_statements.
  - cbv zeta. unfold bind at 1, runOn. rewrite execute_run.
    rewrite itemsQuery_statement. rewrite length_map. cbn [List.length].
    destruct (respond drv _ (mkStmt (itemsQueryText (S (List.length more))) _))
      as [items|e]; cbn [error data].
    + destruct (groupItems [] items) as [e|g]; cbn;
        eexists; eexists; (split; [reflexivity|]); (split; [reflexivity|]);
        count_statements.
    + cbn. eexists; eexists; split; [reflexivity|]. split; [reflexivity|].
      count_statements.
  - cbn. eexists; eexists; split; [reflexivity|]. split; [reflexivity|].
    count_statements.
Qed.

(** X14. When the database returns the orders and then the items, every
    order id and item [order_id] is a string or another value whose property
    key is its plain numeral (for a number: an integer JavaScript holds
    exactly), and none is a name that objects inherit (such as
    [constructor]), [fetchOrders] returns the orders in the order of the rows,
    each with exactly the items whose [order_id] converts to the same property
    key as the order's [id], in the order of the item rows; an order without
    items gets the empty array. *)
Theorem fetchOrders_groups_items_by_order (drv : Driver) (w : World)
    (orders items : list Row) :
  orders <> [] ->
  respond drv (trace w) ordersQuery = Rows orders ->
  respond drv (trace w ++ [Sent ViaPool ordersQuery])%list
          (mkStmt (itemsQueryText (List.length orders)) (map (prop "id") orders))
    = Rows items ->
  (forall item, In item items -> plainKey (prop "order_id" item) = true) ->
  (forall order, In order orders -> plainKey (prop "id" order) = true) ->
  (forall item, In item items -> objectPrototypeHas (orderKey item) = false) ->
  (forall order, In order orders -> objectPrototypeHas (idKey order) = false) ->
  fst (fetchOrders drv w)
  = Returned (mkEnvelope
                (Some (OrdersWithItems
                         (map (fun order => (order, ItemsArray (itemsOf order items)))
                              orders)))
                None).
Proof.
  intros Hne Horders Hitems _ _ Hitem Horder.
  unfold fetchOrders, tryCatch, bind at 1, runOn.
  rewrite execute_run.
  change (executeStmt (orderBy "order_time" DESC (select (OneColumn "*") (from "orders"))))
    with ordersQuery.
  rewrite Horders. destruct orders as [|order0 more]; [contradiction|].
  cbn [error data]. cbv zeta. unfold bind at 1, runOn. rewrite execute_run.
  rewrite itemsQuery_statement. rewrite length_map.
  cbn [logEvent trace]. unfold push at 1. rewrite Hitems. cbn [error data].
  destruct (groupItems_spec items [] Hitem) as (g & -> & Hg).
  cbn. f_equal. f_equal. f_equal.
  change ((order0, itemsFor g order0)
          :: map (fun order => (order, itemsFor g order)) more)
    with (map (fun order => (order, itemsFor g order)) (order0 :: more)).
  change ((order0, ItemsArray (itemsOf order0 items))
          :: map (fun order => (order, ItemsArray (itemsOf order items))) more)
    with (map (fun order => (order, ItemsArray (itemsOf order items))) (order0 :: more)).
  f_equal. apply map_ext_in. intros order Hin. f_equal.
  unfold itemsFor, lookupGroup, itemsOf. rewrite Hg, (Horder order Hin). simpl.
  destruct (filter (fun item => String.eqb (orderKey item) (idKey order)) items);
    reflexivity.
Qed.

Lemma fetchOrders_groups_items_by_order_witness :
  fst (fetchOrders twoOrdersThreeItems (mkWorld 1 []))
  = Returned
      (mkEnvelope
         (Some (OrdersWithItems
                  [([("id", JStr "o1")],
                    ItemsArray [[("order_id", JStr "o1"); ("name", JStr "Margherita")];
                                [("order_id", JStr "o1"); ("name", JStr "Cola")]]);
                   ([("id", JStr "o2")],
                    ItemsArray [[("order_id", JStr "o2"); ("name", JStr "Calzone")]])]))
         None).
Proof.
  apply (fetchOrders_groups_items_by_order twoOrdersThreeItems (mkWorld 1 [])
           [[("id", JStr "o1")]; [("id", JStr "o2")]]
           [[("order_id", JStr "o1"); ("name", JStr "Margherita")];
            [("order_id", JStr "o2"); ("name", JStr "Calzone")];
            [("order_id", JStr "o1"); ("name", JStr "Cola")]]).
  - discriminate.
  - reflexivity.
  - reflexivity.
  - intros item [<-|[<-|[<-|[]]]]; reflexivity.
  - intros order [<-|[<-|[]]]; reflexivity.
  - intros item [<-|[<-|[<-|[]]]]; reflexivity.
  - intros order [<-|[<-|[]]]; reflexivity.
Defined.

(** ** The cash register and the sessions *)

(** X15. [openCashRegister] never returns a session.  When the look-up of
    the open session is answered with rows, even with none, the answer is an
    array and therefore truthy: the function sends nothing more and reports
    that a session is already open.  When the look-up fails, it sends the
    [INSERT] of the new session and reports a [TypeError], [execute] being
    called on the promise of [insert]. *)
Theorem openCashRegister_never_opens (drv : Driver) (OPEN : JsValue)
    (sessionId now : string) (openingBalance : JsValue) (notes : option string)
    (w : World) :
  exists e w',
    openCashRegister drv OPEN sessionId now openingBalance notes w
    = (Returned (mkEnvelope None (Some e)), w')
    /\ available w' = available w
    /\ match respond drv (trace w) (activeSessionQuery OPEN) with
       | Rows _ =>
           statements (trace w')
           = (statements (trace w) ++ [activeSessionQuery OPEN])%list
           /\ e = UserError "Já existe uma sessão de caixa aberta. Feche a sessão atual antes de abrir uma nova."
       | Rejects _ =>
           statements (trace w')
           = (statements (trace w)
              ++ [activeSessionQuery OPEN;
                  insertStmt (from "cash_register_sessions")
                             (sessionRecord OPEN sessionId now openingBalance notes)])%list
           /\ exists msg, e = TypeError msg
       end.
Proof.
  unfold openCashRegister, fetchActiveCashSession, tryCatch, bind at 1, runOn.
  unfold bind at 1. rewrite execute_run.
  change (executeStmt (single (eq "status" OPEN
                         (select (OneColumn "*") (from "cash_register_sessions")))))
    with (activeSessionQuery OPEN).
  destruct (respond drv (trace w) (activeSessionQuery OPEN)) as [rows|rejection];
    cbn [error data].
  - cbn. eexists; eexists; split; [reflexivity|]. split; [reflexivity|].
    split; [count_statements | reflexivity].
  - destruct (negb (String.eqb (messageOf rejection) "")
              && includes "Nenhum registro encontrado" (messageOf rejection));
      cbn; unfold bind, callAsync, callExecute, throw; rewrite insert_run;
      match goal with |- context [respond drv ?tr ?s] =>
        destruct (respond drv tr s) end; cbn;
      eexists; eexists; (split; [reflexivity|]); (split; [reflexivity|]);
      (split; [count_statements | eauto]).
Qed.

(** X16. [signOut] sends [DELETE FROM sessions RETURNING *], without
    [WHERE] clause and without the session id, because [delete] runs before
    [eq] is reached: the statement is not restricted to the session being
    closed.  It sends nothing else and always reports a [TypeError]. *)
Theorem signOut_deletes_unfiltered (drv : Driver) (sessionId : string) (w : World) :
  exists msg w',
    signOut drv sessionId w = (Returned (Some (TypeError msg)), w')
    /\ available w' = available w
    /\ statements (trace w') = (statements (trace w) ++ [sessionsDelete])%list
    /\ params sessionsDelete = [].
Proof.
  unfold signOut, tryCatch, bind, callAsync, callEq, callExecute, throw.
  rewrite delete_run.
  change (deleteStmt (from "sessions")) with sessionsDelete.
  destruct (respond drv (trace w) sessionsDelete); cbn;
    eexists; eexists; (split; [reflexivity|]); (split; [reflexivity|]);
    (split; [count_statements | reflexivity]).
Qed.

(** X17. [signIn] looks the user up with the email bound as a parameter.
    When the look-up fails, finds no user, or [bcrypt.compare] answers false,
    it returns the same result, the error [Email ou senha incorretos], and
    sends nothing more.  When the password is right it sends the [INSERT] of
    the session and then fails with a [TypeError], [execute] being called on
    the promise of [insert].  In no case does it return a user or a session,
    and the password reaches no statement. *)
Theorem signIn_outcomes (drv : Driver) (bcryptCompare : string -> JsValue -> Exn + bool)
    (sessionId now expiresAt email password : string) (w : World) :
  exists e w',
    signIn drv bcryptCompare sessionId now expiresAt email password w
    = (Returned (mkSignIn None None (Some e)), w')
    /\ available w' = available w
    /\ match respond drv (trace w) (usersByEmail email) with
       | Rows (user0 :: _) =>
           match bcryptCompare password (prop "password_hash" user0) with
           | inr true =>
               statements (trace w')
               = (statements (trace w)
                  ++ [usersByEmail email;
                      sessionInsert sessionId now expiresAt (prop "id" user0)])%list
               /\ exists msg, e = TypeError msg
           | inr false =>
               statements (trace w') = (statements (trace w) ++ [usersByEmail email])%list
               /\ e = UserError "Email ou senha incorretos"
           | inl rejection =>
               statements (trace w') = (statements (trace w) ++ [usersByEmail email])%list
               /\ e = rejection
           end
       | _ =>
           statements (trace w') = (statements (trace w) ++ [usersByEmail email])%list
           /\ e = UserError "Email ou senha incorretos"
       end.
Proof.
  unfold signIn, tryCatch, bind at 1, runOn.
  rewrite execute_run.
  change (executeStmt (eq "email" (JStr email) (select (OneColumn "*") (from "users"))))
    with (usersByEmail email).
  destruct (respond drv (trace w) (usersByEmail email)) as [[|user0 rows]|rejection];
    cbn [error data].
  - cbn. eexists; eexists; split; [reflexivity|]. split; [reflexivity|].
    split; [count_statements | reflexivity].
  - unfold bind at 1.
    destruct (bcryptCompare password (prop "password_hash" user0)) as [e|[|]];
      cbn [awaitCompare throw ret negb].
    + cbn. eexists; eexists; split; [reflexivity|]. split; [reflexivity|].
      split; [count_statements | reflexivity].
    + unfold bind, callAsync, callExecute, throw. rewrite insert_run.
      change (insertStmt (from "sessions")
                [("id", JStr sessionId); ("user_id", prop "id" user0);
                 ("created_at", JStr now); ("expires_at", JStr expiresAt)])
        with (sessionInsert sessionId now expiresAt (prop "id" user0)).
      match goal with |- context [respond drv ?tr ?s] =>
        destruct (respond drv tr s) end; cbn;
      eexists; eexists; (split; [reflexivity|]); (split; [reflexivity|]);
      (split; [count_statements | eauto]).
    + cbn. eexists; eexists; split; [reflexivity|]. split; [reflexivity|].
      split; [count_statements | reflexivity].
  - cbn. eexists; eexists; split; [reflexivity|]. split; [reflexivity|].
    split; [count_statements | reflexivity].
Qed.
